(** * movieAI-app: the [sendMessage] server action of [src/app/actions.tsx]

    A shallow embedding of the orchestration loop: the AI state (the
    conversation history), the four tool generators and the text handler
    handed to [streamUI], and the values they read from the movie provider.

    Conventions of the embedding.
    - A JavaScript string is a [string] of 8-bit characters. This is exact
      for ASCII text; beyond ASCII a character stands for one byte of the
      UTF-8 form, which is what the query serializer encodes and which leaves
      splitting at [", "] unchanged.
    - A JavaScript number is carried by its [Number::toString] text: the
      program never computes with numbers, it only prints them (template
      literals, JSX children, [URLSearchParams]).
    - Effects are explicit: a computation is a function from the state of the
      running action ([World]) to an outcome (returned value or thrown error)
      and the state it leaves behind. An [await] is a sequencing point; a
      turn is followed to the end of its UI stream.
    - The model, the provider and the clock are inputs ([Env]).
    - [streamUI], [getMutableAIState], [createAI] and [fetch] belong to the
      platform and to the [ai/rsc] package; they are modelled by what they do
      with the arguments the source passes them. In particular [streamUI]
      starts a handler and does not wait for it: what a handler throws is
      caught by nobody and leaves the UI stream open.
    - [console.log] calls are dropped: nothing reads the console. *)

From Stdlib Require Import String Ascii List Bool Arith ZArith Lia.
Import ListNotations.

Open Scope string_scope.
Open Scope list_scope.

Set Warnings "-register-all".

(** ** JavaScript values as [response.json()] and property reads produce them

    [JObject] lists an object's own properties in their order; keys are
    distinct, as in any object. *)

Inductive JSValue : Type :=
| JUndefined
| JNull
| JBool (b : bool)
| JNumber (text : string)
| JString (s : string)
| JArray (items : list JSValue)
| JObject (props : list (string * JSValue)).

Inductive Error : Type :=
| TypeError      (* property read on null/undefined, call of a non-function *)
| SyntaxError    (* response.json() on a body that is not JSON *)
| FetchFailed    (* fetch() rejected: no response at all *)
| OracleFailed.  (* the completion stream reported an error *)

Inductive Outcome (A : Type) : Type :=
| Returned (a : A)
| Thrown (e : Error).

Arguments Returned {A} a.
Arguments Thrown {A} e.

(** The double quote, which the source writes inside template literals. *)
Definition dquote : string := String "034"%char EmptyString.
Definition newline : string := String "010"%char EmptyString.

(** The string a value converts to, when the conversion succeeds (see
    [coercible] below). An array prints as its elements joined by commas,
    with null and undefined elements printed as nothing. *)
Fixpoint ToString (v : JSValue) : string :=
  match v with
  | JUndefined => "undefined"
  | JNull => "null"
  | JBool true => "true"
  | JBool false => "false"
  | JNumber text => text
  | JString s => s
  | JArray items =>
      (fix join_items (l : list JSValue) : string :=
         match l with
         | [] => EmptyString
         | x :: rest =>
             let here :=
               match x with
               | JUndefined | JNull => EmptyString
               | _ => ToString x
               end in
             match rest with
             | [] => here
             | _ :: _ => (here ++ "," ++ join_items rest)%string
             end
         end) items
  | JObject _ => "[object Object]"
  end.

(** Whether a value converts to a string. An object that holds a property
    named [toString] does not: what [JSON.parse] puts there is never a
    function, so neither [toString] nor [valueOf] yields a primitive and the
    conversion throws. An array converts when its elements do. *)
Fixpoint coercible (v : JSValue) : bool :=
  match v with
  | JArray items =>
      (fix all_coercible (l : list JSValue) : bool :=
         match l with
         | [] => true
         | x :: rest => coercible x && all_coercible rest
         end) items
  | JObject props =>
      negb (existsb (fun kv => String.eqb (fst kv) "toString") props)
  | _ => true
  end.

(** String conversion, as a template literal ([`${v}`]) and React's key
    ([Q + key], with [Q] the empty string) apply it. *)
Definition coerce (v : JSValue) : Outcome string :=
  if coercible v then Returned (ToString v) else Thrown TypeError.

Fixpoint lookup (key : string) (props : list (string * JSValue)) : JSValue :=
  match props with
  | [] => JUndefined
  | (k, v) :: rest => if String.eqb k key then v else lookup key rest
  end.

(** [v[0]]. *)
Definition first (v : JSValue) : Outcome JSValue :=
  match v with
  | JUndefined | JNull => Thrown TypeError
  | JBool _ | JNumber _ => Returned JUndefined
  | JString EmptyString => Returned JUndefined
  | JString (String c _) => Returned (JString (String c EmptyString))
  | JArray [] => Returned JUndefined
  | JArray (x :: _) => Returned x
  | JObject props => Returned (lookup "0" props)
  end.

(** [v.key], for the keys the source reads ([Title], [title], [overview],
    [release_date], [vote_average], [Actors], [id], [imdbID], [Year]): none
    of them is defined by a built-in prototype, so only an object's own
    properties can answer. *)
Definition member (v : JSValue) (key : string) : Outcome JSValue :=
  match v with
  | JUndefined | JNull => Thrown TypeError
  | JObject props => Returned (lookup key props)
  | _ => Returned JUndefined
  end.

(** ** [String.prototype.split] and [Array.prototype.join] *)

(** [split_from sep skip cur s] scans [s] from the left: [cur] is the piece
    read so far, [skip] the number of characters of a matched separator still
    to pass over. *)
Fixpoint split_from (sep : string) (skip : nat) (cur : string) (s : string)
  : list string :=
  match s with
  | EmptyString => [cur]
  | String c rest =>
      match skip with
      | S k => split_from sep k cur rest
      | O =>
          if String.prefix sep s
          then cur :: split_from sep (String.length sep - 1) EmptyString rest
          else split_from sep O (cur ++ String c EmptyString)%string rest
      end
  end.

(** [s.split(sep)] for a non-empty separator. *)
Definition split (sep s : string) : list string := split_from sep O EmptyString s.

(** [pieces.join(sep)] on an array of strings. *)
Fixpoint join (sep : string) (pieces : list string) : string :=
  match pieces with
  | [] => EmptyString
  | [piece] => piece
  | piece :: rest => (piece ++ sep ++ join sep rest)%string
  end.

(** [v.split(sep)]: only a string has the method. *)
Definition call_split (v : JSValue) (sep : string) : Outcome (list string) :=
  match v with
  | JString s => Returned (split sep s)
  | _ => Thrown TypeError
  end.

(** ** React elements, as the JSX of the source builds them *)

Inductive ReactNode : Type :=
| RText (s : string)                 (* literal JSX text *)
| RValue (v : JSValue)               (* an embedded expression [{e}] *)
| RArray (items : list ReactNode)    (* the array a [map] callback builds *)
| RFragment (children : list ReactNode)
| RElement (type : string) (props : list (string * string))
           (key : option string) (children : list ReactNode).

Definition div (children : list ReactNode) : ReactNode :=
  RElement "div" [] None children.
Definition h2 (children : list ReactNode) : ReactNode :=
  RElement "h2" [] None children.
Definition p (children : list ReactNode) : ReactNode :=
  RElement "p" [] None children.
Definition ul (children : list ReactNode) : ReactNode :=
  RElement "ul" [] None children.

(** The element [<li key={k}>...</li>] for a key that converts: React keeps
    no key for [undefined] and the string form of anything else. *)
Definition li_element (k : JSValue) (children : list ReactNode) : ReactNode :=
  RElement "li" []
    (match k with JUndefined => None | _ => Some (ToString k) end) children.

(** [<li key={k}>...</li>]: creating the element converts the key to a
    string, which throws when the key does not convert. *)
Definition li (k : JSValue) (children : list ReactNode) : Outcome ReactNode :=
  if coercible k then Returned (li_element k children) else Thrown TypeError.

(** ** The AI state: the conversation history *)

Inductive Role : Type := user | assistant | system.

Inductive ToolName : Type :=
| get_movie_info
| get_movie_cast
| search_movie_title
| filter_movies.

(** The system entry of the request carries [toolInvocations: []]; no entry
    of the history has the field. *)
Inductive ToolInvocation : Type := .

Module Message.
Record t : Type := make {
  id : option Z;
  name : option ToolName;
  role : Role;
  content : string;
  toolInvocations : option (list ToolInvocation)
}.
End Message.

Definition AIState : Type := list Message.t.

(** [{ role: 'user', content: message }] *)
Definition user_entry (message : string) : Message.t :=
  Message.make None None user message None.

(** [{ role: 'assistant', content }] *)
Definition assistant_entry (content : string) : Message.t :=
  Message.make None None assistant content None.

(** [{ role: 'assistant', name: tool, content }] *)
Definition tool_entry (tool : ToolName) (content : string) : Message.t :=
  Message.make None (Some tool) assistant content None.

(** The system prompt (the module-level constant [content]). *)
Definition content : string :=
  "You are a movie bot and you can help users get information about movies."
  ++ newline ++ newline
  ++ "Messages inside [] means that it's a UI element or a user event. For example:"
  ++ newline
  ++ "- " ++ dquote ++ "[Information about Inception]" ++ dquote
  ++ " means that the interface of the movie information about Inception is shown to the user."
  ++ newline ++ newline
  ++ "If the user wants information about a movie, call `get_movie_info` to show the information."
  ++ newline
  ++ "If the user wants the cast of a movie, call `get_movie_cast` to show the cast."
  ++ newline
  ++ "If the user wants to search for movies by title, call `search_movie_title`."
  ++ newline
  ++ "If the user wants to filter movies by criteria, call `filter_movies`."
  ++ newline
  ++ "If the user wants to do anything else, it is an impossible task, so you should respond that you are a demo and cannot do that."
  ++ newline ++ newline
  ++ "Besides getting information about movies, you can also chat with users."
  ++ newline.

(** [{ role: 'system', content, toolInvocations: [] }] *)
Definition system_entry : Message.t :=
  Message.make None None system content (Some []).

(** ** The outside world of one call *)

Record Request : Type := {
  url : string;
  headers : list (string * string)
}.

(** A response: its [ok] flag and what [json()] resolves to ([None] when the
    body is not JSON and [json()] rejects). *)
Record Response : Type := {
  ok : bool;
  body : option JSValue
}.

Inductive FetchResult : Type :=
| Rejected
| Responded (response : Response).

(** A tool selection, with the parameters the tool's schema let through. *)
Inductive ToolCall : Type :=
| Call_get_movie_info (imdbId : string)
| Call_get_movie_cast (imdbId : string)
| Call_search_movie_title (title : string)
| Call_filter_movies (params : list (string * JSValue)).

Definition tool_of (call : ToolCall) : ToolName :=
  match call with
  | Call_get_movie_info _ => get_movie_info
  | Call_get_movie_cast _ => get_movie_cast
  | Call_search_movie_title _ => search_movie_title
  | Call_filter_movies _ => filter_movies
  end.

(** What the model answers: text arriving in pieces, one tool selection, or
    an error reported in the stream; or the request to the model itself
    fails and there is no stream. *)
Inductive Completion : Type :=
| TextStream (deltas : list string)
| ToolSelected (call : ToolCall)
| StreamError
| RequestFailed.

Record Env : Type := {
  RAPIDAPI_KEY : string;          (* env.RAPIDAPI_KEY *)
  fetch_answer : Request -> FetchResult;
  oracle : list Message.t -> Completion;
  now : Z                         (* Date.now() *)
}.

(** The streamed UI is open until [ui.done] or [ui.error] ends it. *)
Inductive UIStatus : Type :=
| Open
| Done
| Failed (e : Error).

(** The state of one running action: the mutable AI state ([history]), whether
    [history.done] closed it, the requests sent to the provider, the message
    lists sent to the model, the values the streamed UI took, the error that
    cut the turn short (wherever it was thrown, caught or not), what became
    of the streamed UI, and the time spent in [sleep]. *)
Record World : Type := {
  history : AIState;
  closed : bool;
  requests : list Request;
  oracle_calls : list (list Message.t);
  frames : list ReactNode;
  failure : option Error;
  ui : UIStatus;
  slept : Z
}.

Definition initialAIState : AIState := [].

Definition start (state : AIState) : World :=
  {| history := state; closed := false; requests := []; oracle_calls := [];
     frames := []; failure := None; ui := Open; slept := 0 |}.

(** ** Computations *)

Definition M (A : Type) : Type := World -> Outcome A * World.

Definition ret {A} (a : A) : M A := fun w => (Returned a, w).

Definition throw {A} (e : Error) : M A := fun w => (Thrown e, w).

Definition bind {A B} (m : M A) (k : A -> M B) : M B :=
  fun w =>
    match m w with
    | (Returned a, w') => k a w'
    | (Thrown e, w') => (Thrown e, w')
    end.

Definition catch {A} (m : M A) (handler : Error -> M A) : M A :=
  fun w =>
    match m w with
    | (Returned a, w') => (Returned a, w')
    | (Thrown e, w') => handler e w'
    end.

Definition lift {A} (o : Outcome A) : M A := fun w => (o, w).

Declare Scope action_scope.
Delimit Scope action_scope with action.
Notation "x <- m ;; k" := (bind m (fun x => k))
  (at level 61, m at next level, right associativity) : action_scope.
Notation "m ;; k" := (bind m (fun _ => k))
  (at level 61, right associativity) : action_scope.
Open Scope action_scope.

(** [history.get()] *)
Definition history_get : M AIState := fun w => (Returned (history w), w).

(** [history.update(state)] *)
Definition history_update (state : AIState) : M unit :=
  fun w =>
    (Returned tt,
     {| history := state; closed := closed w; requests := requests w;
        oracle_calls := oracle_calls w; frames := frames w;
        failure := failure w; ui := ui w; slept := slept w |}).

(** [history.done(state)] *)
Definition history_done (state : AIState) : M unit :=
  fun w =>
    (Returned tt,
     {| history := state; closed := true; requests := requests w;
        oracle_calls := oracle_calls w; frames := frames w;
        failure := failure w; ui := ui w; slept := slept w |}).

(** A value handed to the streamed UI: a [yield] of a generator, or what
    [streamUI] does with a handler's result. *)
Definition yield (node : ReactNode) : M unit :=
  fun w =>
    (Returned tt,
     {| history := history w; closed := closed w; requests := requests w;
        oracle_calls := oracle_calls w; frames := frames w ++ [node];
        failure := failure w; ui := ui w; slept := slept w |}).

(** [await fetch(url, { headers })] *)
Definition fetch (env : Env) (url : string) (headers : list (string * string))
  : M Response :=
  fun w =>
    let request := {| url := url; headers := headers |} in
    let w' :=
      {| history := history w; closed := closed w;
         requests := requests w ++ [request];
         oracle_calls := oracle_calls w; frames := frames w;
         failure := failure w; ui := ui w; slept := slept w |} in
    match fetch_answer env request with
    | Responded response => (Returned response, w')
    | Rejected => (Thrown FetchFailed, w')
    end.

(** [await response.json()] *)
Definition json (response : Response) : M JSValue :=
  match body response with
  | Some value => ret value
  | None => throw SyntaxError
  end.

(** [await sleep(ms)] *)
Definition sleep (ms : Z) : M unit :=
  fun w =>
    (Returned tt,
     {| history := history w; closed := closed w; requests := requests w;
        oracle_calls := oracle_calls w; frames := frames w;
        failure := failure w; ui := ui w; slept := (slept w + ms)%Z |}).

(** The headers every provider request carries. *)
Definition rapidapi_headers (env : Env) : list (string * string) :=
  [("x-rapidapi-host", "moviedatabase8.p.rapidapi.com");
   ("x-rapidapi-key", RAPIDAPI_KEY env)].

(** ** [URLSearchParams] *)

Definition hex_digit (n : nat) : ascii :=
  if (n <? 10)%nat then ascii_of_nat (48 + n) else ascii_of_nat (55 + n).

(** The bytes the form-urlencoded serializer leaves as they are: ASCII
    letters and digits, and [*], [-], [.], [_]. *)
Definition unreserved (c : ascii) : bool :=
  let n := nat_of_ascii c in
  (((48 <=? n) && (n <=? 57)) || ((65 <=? n) && (n <=? 90))
   || ((97 <=? n) && (n <=? 122))
   || (n =? 42) || (n =? 45) || (n =? 46) || (n =? 95))%nat.

Definition encode_byte (c : ascii) : string :=
  if unreserved c then String c EmptyString
  else if (nat_of_ascii c =? 32)%nat then "+"
  else String "%" (String (hex_digit (nat_of_ascii c / 16))
                     (String (hex_digit (nat_of_ascii c mod 16)) EmptyString)).

Fixpoint urlencode (s : string) : string :=
  match s with
  | EmptyString => EmptyString
  | String c rest => (encode_byte c ++ urlencode rest)%string
  end.

(** [new URLSearchParams(params)] on an object: one pair per own property,
    in property order, the value converted to a string. The object is the
    bag a tool's schema let through, whose values are strings and numbers;
    they all convert. *)
Definition URLSearchParams (params : list (string * JSValue))
  : list (string * string) :=
  map (fun kv => (fst kv, ToString (snd kv))) params.

(** The text of one pair: name and value encoded, with [=] between. *)
Definition pair_text (kv : string * string) : string :=
  (urlencode (fst kv) ++ "=" ++ urlencode (snd kv))%string.

(** [searchParams.toString()] *)
Definition URLSearchParams_toString (pairs : list (string * string)) : string :=
  join "&" (map pair_text pairs).

(** *** The provider's reading of a query string

    The form-urlencoded parser: the query is cut at every [&], empty pieces
    are dropped, each piece is cut at its first [=] into a name and a value,
    and both are decoded ([+] is a space, [%XY] the byte with that code). *)

Fixpoint split_on (c : ascii) (s : string) : list string :=
  match s with
  | EmptyString => [EmptyString]
  | String a rest =>
      if Ascii.eqb a c then EmptyString :: split_on c rest
      else String a (hd EmptyString (split_on c rest)) :: tl (split_on c rest)
  end.

Fixpoint cut_at (c : ascii) (s : string) : string * string :=
  match s with
  | EmptyString => (EmptyString, EmptyString)
  | String a rest =>
      if Ascii.eqb a c then (EmptyString, rest)
      else (String a (fst (cut_at c rest)), snd (cut_at c rest))
  end.

Definition hex_value (c : ascii) : option nat :=
  let n := nat_of_ascii c in
  if ((48 <=? n) && (n <=? 57))%nat then Some (n - 48)
  else if ((65 <=? n) && (n <=? 70))%nat then Some (n - 55)
  else if ((97 <=? n) && (n <=? 102))%nat then Some (n - 87)
  else None.

Fixpoint form_decode (s : string) : string :=
  match s with
  | EmptyString => EmptyString
  | String c rest =>
      if Ascii.eqb c "+" then String " " (form_decode rest)
      else if Ascii.eqb c "%" then
        match rest with
        | String a (String b rest') =>
            match hex_value a, hex_value b with
            | Some hi, Some lo =>
                String (ascii_of_nat (16 * hi + lo)) (form_decode rest')
            | _, _ => String c (form_decode rest)
            end
        | _ => String c (form_decode rest)
        end
      else String c (form_decode rest)
  end.

Definition parse_query (query : string) : list (string * string) :=
  map (fun piece =>
         (form_decode (fst (cut_at "=" piece)), form_decode (snd (cut_at "=" piece))))
    (filter (fun piece => negb (String.eqb piece EmptyString))
       (split_on "&" query)).

(** ** The tools of [streamUI] *)

(** Runs a [map] callback over the items, left to right; the first throw
    ends it. *)
Fixpoint map_items (f : JSValue -> Outcome ReactNode) (items : list JSValue)
  : Outcome (list ReactNode) :=
  match items with
  | [] => Returned []
  | x :: rest =>
      match f x with
      | Thrown e => Thrown e
      | Returned node =>
          match map_items f rest with
          | Thrown e => Thrown e
          | Returned nodes => Returned (node :: nodes)
          end
      end
  end.

Definition get_movie_info_generate (env : Env) (imdbId : string) : M ReactNode :=
  yield (div [RText "Loading movie information..."]) ;;
  response <- fetch env
    ("https://moviedatabase8.p.rapidapi.com/FindByImbdId/" ++ imdbId)
    (rapidapi_headers env) ;;
  if negb (ok response) then ret (div [RText "Movie not found!"])
  else
    movie <- json response ;;
    sleep 1000 ;;
    current <- history_get ;;
    record <- lift (first movie) ;;
    Title <- lift (member record "Title") ;;
    shown <- lift (coerce Title) ;;
    history_done
      (current ++ [tool_entry get_movie_info
                     ("[Information about " ++ shown ++ "]")]) ;;
    record <- lift (first movie) ;;
    title <- lift (member record "title") ;;
    overview <- lift (member record "overview") ;;
    release_date <- lift (member record "release_date") ;;
    vote_average <- lift (member record "vote_average") ;;
    ret (RFragment
           [h2 [RValue title];
            p [RValue overview];
            p [RText "Release Date: "; RValue release_date];
            p [RText "Rating: "; RValue vote_average]]).

(** [movie[0].Actors.split(', ')]: the names of the cast. *)
Definition cast_names (movie : JSValue) : Outcome (list string) :=
  match first movie with
  | Returned record =>
      match member record "Actors" with
      | Returned Actors => call_split Actors ", "
      | Thrown e => Thrown e
      end
  | Thrown e => Thrown e
  end.

Definition get_movie_cast_generate (env : Env) (imdbId : string) : M ReactNode :=
  yield (div [RText "Loading movie cast..."]) ;;
  response <- fetch env
    ("https://moviedatabase8.p.rapidapi.com/FindByImbdId/" ++ imdbId)
    (rapidapi_headers env) ;;
  if negb (ok response) then ret (div [RText "Cast not found!"])
  else
    movie <- json response ;;
    cast <- lift (cast_names movie) ;;
    sleep 1000 ;;
    current <- history_get ;;
    record <- lift (first movie) ;;
    Title <- lift (member record "Title") ;;
    shown <- lift (coerce Title) ;;
    history_done
      (current ++ [tool_entry get_movie_cast
                     ("[Cast of " ++ shown ++ "]")]) ;;
    record <- lift (first movie) ;;
    Title <- lift (member record "Title") ;;
    ret (div [h2 [RText "Cast of "; RValue Title];
              p [RValue (JString (join ", " cast))]]).

(** [movies?.map(movie => <li key={movie.id}>{movie.title}</li>)] *)
Definition search_items (movies : JSValue) : Outcome ReactNode :=
  match movies with
  | JUndefined | JNull => Returned (RValue JUndefined)
  | JArray items =>
      match
        map_items
          (fun movie =>
             match member movie "id", member movie "title" with
             | Returned id, Returned title => li id [RValue title]
             | Thrown e, _ | _, Thrown e => Thrown e
             end) items
      with
      | Returned nodes => Returned (RArray nodes)
      | Thrown e => Thrown e
      end
  | _ => Thrown TypeError
  end.

Definition search_movie_title_generate (env : Env) (title : string)
  : M ReactNode :=
  yield (div [RText "Searching for movies..."]) ;;
  response <- fetch env
    ("https://moviedatabase8.p.rapidapi.com/Search/" ++ title)
    (rapidapi_headers env) ;;
  if negb (ok response) then ret (div [RText "No movies found!"])
  else
    data <- json response ;;
    let movies := data in
    sleep 1000 ;;
    current <- history_get ;;
    history_done
      (current ++ [tool_entry search_movie_title
                     ("[Movies matching " ++ dquote ++ title ++ dquote ++ "]")]) ;;
    items <- lift (search_items movies) ;;
    ret (div [h2 [RText ("Movies matching " ++ dquote);
                  RValue (JString title);
                  RText dquote];
              ul [items]]).

(** [movies.map(movie => <li key={movie.imdbID}>{movie.Title} ({movie.Year})</li>)] *)
Definition filter_items (movies : JSValue) : Outcome ReactNode :=
  match movies with
  | JArray items =>
      match
        map_items
          (fun movie =>
             match member movie "imdbID", member movie "Title",
                   member movie "Year" with
             | Returned imdbID, Returned Title, Returned Year =>
                 li imdbID [RValue Title; RText " ("; RValue Year; RText ")"]
             | Thrown e, _, _ | _, Thrown e, _ | _, _, Thrown e => Thrown e
             end) items
      with
      | Returned nodes => Returned (RArray nodes)
      | Thrown e => Thrown e
      end
  | _ => Thrown TypeError
  end.

Definition filter_movies_generate (env : Env) (params : list (string * JSValue))
  : M ReactNode :=
  yield (div [RText "Filtering movies..."]) ;;
  let query := URLSearchParams_toString (URLSearchParams params) in
  response <- fetch env
    ("https://moviedatabase8.p.rapidapi.com/Filter?" ++ query)
    (rapidapi_headers env) ;;
  if negb (ok response)
  then ret (div [RText "No movies found with the specified criteria!"])
  else
    movies <- json response ;;
    sleep 1000 ;;
    current <- history_get ;;
    history_done
      (current ++ [tool_entry filter_movies "[Movies matching criteria]"]) ;;
    items <- lift (filter_items movies) ;;
    ret (div [h2 [RText "Movies matching criteria"];
              ul [items]]).

(** The [generate] of the selected tool. *)
Definition generate (env : Env) (call : ToolCall) : M ReactNode :=
  match call with
  | Call_get_movie_info imdbId => get_movie_info_generate env imdbId
  | Call_get_movie_cast imdbId => get_movie_cast_generate env imdbId
  | Call_search_movie_title title => search_movie_title_generate env title
  | Call_filter_movies params => filter_movies_generate env params
  end.

(** The [text] handler. *)
Definition text (content : string) (done : bool) : M ReactNode :=
  (if done
   then current <- history_get ;;
        history_done (current ++ [assistant_entry content])
   else ret tt) ;;
  ret (div [RValue (JString content)]).

(** ** [streamUI] and [sendMessage] *)

(** What the streamed UI went through by the time the handlers were over:
    the values it took, in order, and whether it was ended, and how. *)
Record Streamed : Type := {
  values : list ReactNode;
  status : UIStatus
}.

Module UIState.
Record t : Type := make {
  id : Z;
  role : Role;
  display : Streamed
}.
End UIState.

(** The [initial] placeholder. *)
Definition initial : ReactNode :=
  RElement "div"
    [("className", "items-center flex shrink-0 select-none justify-center")] None
    [RElement "Loader2" [("className", "h-5 w-5 animate-spin stroke-zinc-900")]
       None []].

(** The call to the model: the message list goes out, the completion comes
    back. *)
Definition complete (env : Env) (messages : list Message.t) : M Completion :=
  fun w =>
    (Returned (oracle env messages),
     {| history := history w; closed := closed w; requests := requests w;
        oracle_calls := oracle_calls w ++ [messages]; frames := frames w;
        failure := failure w; ui := ui w; slept := slept w |}).

(** [ui.done(node)]: the last value of the streamed UI. *)
Definition finish (node : ReactNode) : M unit :=
  fun w =>
    (Returned tt,
     {| history := history w; closed := closed w; requests := requests w;
        oracle_calls := oracle_calls w; frames := frames w ++ [node];
        failure := failure w; ui := Done; slept := slept w |}).

(** [ui.error(e)]: [streamUI] ends the UI stream on an error of the model's
    stream. *)
Definition ui_error (e : Error) : M unit :=
  fun w =>
    (Returned tt,
     {| history := history w; closed := closed w; requests := requests w;
        oracle_calls := oracle_calls w; frames := frames w;
        failure := Some e; ui := Failed e; slept := slept w |}).

(** What a handler throws: [streamUI] has started the handler without
    waiting for it, so nothing catches the error and the streamed UI is left
    as it is, open. *)
Definition unhandled (e : Error) : M unit :=
  fun w =>
    (Returned tt,
     {| history := history w; closed := closed w; requests := requests w;
        oracle_calls := oracle_calls w; frames := frames w;
        failure := Some e; ui := ui w; slept := slept w |}).

(** The request to the model failing: [await streamUI(...)] rejects. *)
Definition reject {A} (e : Error) : M A :=
  fun w =>
    (Thrown e,
     {| history := history w; closed := closed w; requests := requests w;
        oracle_calls := oracle_calls w; frames := frames w;
        failure := Some e; ui := ui w; slept := slept w |}).

(** [streamUI] on a text answer: it calls the [text] handler on the text so
    far at each piece that arrives, then once more with [done] set on the
    whole text; it shows each result, the last one with [ui.done]. *)
Fixpoint stream_text (deltas : list string) (content : string) : M unit :=
  match deltas with
  | [] => node <- text content true ;; finish node
  | delta :: rest =>
      let content := (content ++ delta)%string in
      node <- text content false ;;
      yield node ;;
      stream_text rest content
  end.

(** [streamUI({ messages, initial, text, tools })]: the UI stream starts on
    [initial]; the model is called on [messages], and [streamUI] rejects when
    that request fails. A text answer goes through the [text] handler; a tool
    selection runs that tool's [generate], whose yields are shown in turn and
    whose return value ends the stream ([ui.done]); an error reported in the
    model's stream ends the UI stream ([ui.error]); what a handler throws is
    not caught. *)
Definition streamUI (env : Env) (messages : list Message.t) : M Streamed :=
  yield initial ;;
  completion <- complete env messages ;;
  match completion with
  | RequestFailed => reject OracleFailed
  | StreamError => ui_error OracleFailed
  | TextStream deltas => catch (stream_text deltas EmptyString) unhandled
  | ToolSelected call =>
      catch (final <- generate env call ;; finish final) unhandled
  end ;;
  fun w => (Returned {| values := frames w; status := ui w |}, w).

Definition sendMessage (env : Env) (message : string) : M UIState.t :=
  current <- history_get ;;
  history_update (current ++ [user_entry message]) ;;
  current <- history_get ;;
  reply <- streamUI env (system_entry :: current) ;;
  ret (UIState.make (now env) assistant reply).

(** ** Sequences of turns *)

Record Turn : Type := {
  turn_env : Env;
  turn_message : string
}.

(** The AI state one call leaves to the next ([createAI]): the state of the
    action leaves it when [history.done] closes it; a state that was only
    [update]d is never handed on, and the next call starts from the state
    this one started from. *)
Definition after_turn (state : AIState) (turn : Turn) : AIState :=
  let w := snd (sendMessage (turn_env turn) (turn_message turn) (start state)) in
  if closed w then history w else state.

Definition after_turns (turns : list Turn) (state : AIState) : AIState :=
  fold_left after_turn turns state.


(** ** Vocabulary of the statements *)

(** The request a tool's generator sends (see [generate_requests]). *)
Definition provider_url (call : ToolCall) : string :=
  match call with
  | Call_get_movie_info imdbId | Call_get_movie_cast imdbId =>
      "https://moviedatabase8.p.rapidapi.com/FindByImbdId/" ++ imdbId
  | Call_search_movie_title title =>
      "https://moviedatabase8.p.rapidapi.com/Search/" ++ title
  | Call_filter_movies params =>
      "https://moviedatabase8.p.rapidapi.com/Filter?"
      ++ URLSearchParams_toString (URLSearchParams params)
  end.

Definition provider_request (env : Env) (call : ToolCall) : Request :=
  {| url := provider_url call; headers := rapidapi_headers env |}.

(** The first value each generator yields. *)
Definition in_progress (tool : ToolName) : ReactNode :=
  div [RText match tool with
             | get_movie_info => "Loading movie information..."
             | get_movie_cast => "Loading movie cast..."
             | search_movie_title => "Searching for movies..."
             | filter_movies => "Filtering movies..."
             end].

(** What each generator returns on a non-success response. *)
Definition not_found (tool : ToolName) : ReactNode :=
  div [RText match tool with
             | get_movie_info => "Movie not found!"
             | get_movie_cast => "Cast not found!"
             | search_movie_title => "No movies found!"
             | filter_movies => "No movies found with the specified criteria!"
             end].

(** The state of the action when the model has been asked: the user's entry
    is in, nothing else has happened. *)
Definition asked (state : AIState) (message : string) : World :=
  {| history := state ++ [user_entry message];
     closed := false;
     requests := [];
     oracle_calls := [system_entry :: state ++ [user_entry message]];
     frames := [initial];
     failure := None;
     ui := Open;
     slept := 0 |}.

(** [drop n s]: [s] without its first [n] characters. *)
Fixpoint drop (n : nat) (s : string) : string :=
  match n, s with
  | O, _ => s
  | S _, EmptyString => EmptyString
  | S k, String _ rest => drop k rest
  end.

(** Whether [sep] occurs in [s] at one of the first [n] positions, and
    whether it occurs in [s] at all. *)
Fixpoint occurs_within (n : nat) (sep s : string) : bool :=
  match n with
  | O => false
  | S k =>
      String.prefix sep s
      || match s with
         | EmptyString => false
         | String _ rest => occurs_within k sep rest
         end
  end.

Definition occurs (sep s : string) : bool :=
  occurs_within (S (String.length s)) sep s.

(** The shape of a success body a generator reads without throwing: an array
    of movie records, with a first record for the two lookups by id, whose
    [Actors] is a string for the cast; what the generator turns into text
    (the [Title] of the two lookups, the [id] or [imdbID] that keys a list
    item) must convert to a string. *)
Definition is_record (value : JSValue) : bool :=
  match value with
  | JObject _ => true
  | _ => false
  end.

Definition keyed_record (key : string) (value : JSValue) : bool :=
  match value with
  | JObject props => coercible (lookup key props)
  | _ => false
  end.

Definition expected_shape (call : ToolCall) (value : JSValue) : bool :=
  match call, value with
  | Call_get_movie_info _, JArray (JObject props :: _) =>
      coercible (lookup "Title" props)
  | Call_get_movie_cast _, JArray (JObject props :: _) =>
      match lookup "Actors" props with
      | JString _ => coercible (lookup "Title" props)
      | _ => false
      end
  | Call_search_movie_title _, JArray items => forallb (keyed_record "id") items
  | Call_filter_movies _, JArray items => forallb (keyed_record "imdbID") items
  | _, _ => false
  end.

(** ** Scenarios *)

(** A world whose model gives one fixed completion and whose provider gives
    one fixed answer. *)
Definition scripted (completion : Completion) (answer : FetchResult) : Env :=
  {| RAPIDAPI_KEY := "test-key";
     fetch_answer := fun _ => answer;
     oracle := fun _ => completion;
     now := 1730505600000 |}.

Definition success (value : JSValue) : FetchResult :=
  Responded {| ok := true; body := Some value |}.

Definition refusal : FetchResult :=
  Responded {| ok := false; body := None |}.

(** A record keyed the way the movie-info fragment reads it. *)
Definition inception : JSValue :=
  JObject [("title", JString "Inception");
           ("overview", JString "A thief steals secrets through dreams.");
           ("release_date", JString "2010-07-15");
           ("vote_average", JNumber "8.4")].

(** A record keyed the way the cast and filter fragments read it. *)
Definition inception_credits : JSValue :=
  JObject [("Title", JString "Inception");
           ("Year", JString "2010");
           ("imdbID", JString "tt1375666");
           ("Actors", JString "Leonardo DiCaprio, Joseph Gordon-Levitt")].

Definition action_since_2010 : list (string * JSValue) :=
  [("Genre", JString "action"); ("MinYear", JNumber "2010");
   ("MinRating", JNumber "7")].

(** ** Proof plumbing *)

Create HintDb action discriminated.
Create HintDb plumbing discriminated.

#[local] Hint Unfold bind ret throw catch lift history_get history_update
  history_done yield finish complete ui_error unhandled reject : plumbing.

#[local] Hint Unfold generate get_movie_info_generate get_movie_cast_generate
  search_movie_title_generate filter_movies_generate cast_names text
  bind ret throw catch lift history_get history_update history_done yield
  finish fetch json sleep complete ui_error unhandled reject
  provider_request provider_url : action.

(** Case analysis on the next thing a run depends on: the provider's answer,
    then the response, then the shape of the body. *)
Ltac next_case :=
  match goal with
  | |- context [fetch_answer ?env ?request] =>
      destruct (fetch_answer env request) eqn:?
  | |- context [ok ?response] => destruct (ok response) eqn:?
  | |- context [body ?response] => destruct (body response) eqn:?
  | |- context [first ?v] => destruct (first v) eqn:?
  | |- context [call_split ?v ?sep] => destruct (call_split v sep) eqn:?
  | |- context [member ?v ?key] => destruct (member v key) eqn:?
  | |- context [coerce ?v] => destruct (coerce v) eqn:?
  | |- context [search_items ?v] => destruct (search_items v) eqn:?
  | |- context [filter_items ?v] => destruct (filter_items v) eqn:?
  end.

Ltac run := autounfold with action; simpl; repeat (next_case; simpl).

(** A fact about one byte, checked on each of the 256. *)
Ltac every_byte c := destruct c as [[] [] [] [] [] [] [] []]; reflexivity.


(** ** Further vocabulary *)

(** [null] and [undefined]: the values a property read throws on. *)
Definition nullish (v : JSValue) : bool :=
  match v with
  | JUndefined | JNull => true
  | _ => false
  end.

Definition is_array (v : JSValue) : bool :=
  match v with
  | JArray _ => true
  | _ => false
  end.

(** The own properties of a value: those of an object, none for anything
    else. *)
Definition props_of (v : JSValue) : list (string * JSValue) :=
  match v with
  | JObject props => props
  | _ => []
  end.

(** The list item each callback builds for one movie whose key converts. *)
Definition search_item (movie : JSValue) : ReactNode :=
  li_element (lookup "id" (props_of movie))
    [RValue (lookup "title" (props_of movie))].

Definition filter_item (movie : JSValue) : ReactNode :=
  li_element (lookup "imdbID" (props_of movie))
    [RValue (lookup "Title" (props_of movie)); RText " (";
     RValue (lookup "Year" (props_of movie)); RText ")"].

(** Whether a callback can build the item of a movie: the movie is neither
    [null] nor [undefined] and its key converts to a string. *)
Definition listable (key : string) (movie : JSValue) : bool :=
  negb (nullish movie) && coercible (lookup key (props_of movie)).

(** The whole text of an answer that arrived in pieces. *)
Definition whole_text (deltas : list string) : string :=
  fold_right String.append EmptyString deltas.

Definition is_user (m : Message.t) : bool :=
  match Message.role m with
  | user => true
  | _ => false
  end.

(** Whether every character of a string passes a test. *)
Fixpoint all_chars (test : ascii -> bool) (s : string) : bool :=
  match s with
  | EmptyString => true
  | String c rest => test c && all_chars test rest
  end.

(** The characters an encoded name or value is made of. *)
Definition query_safe (c : ascii) : bool :=
  unreserved c || Ascii.eqb c "+" || Ascii.eqb c "%".

Fixpoint last_char (s : string) : option ascii :=
  match s with
  | EmptyString => None
  | String c EmptyString => Some c
  | String _ rest => last_char rest
  end.

(** The bracket notation of the system prompt: [[...]]. *)
Definition bracketed (s : string) : bool :=
  String.prefix "[" s
  && match last_char s with
     | Some c => Ascii.eqb c "]"
     | None => false
     end.

(** ** The parameter schemas of the tools

    Each tool declares its parameters as [z.object({...})] of string and
    number fields, required or [.optional()]. [streamUI] hands a tool's
    [generate] what the schema's parser returns for the arguments the model
    gave, and calls nothing when the parser refuses them. *)

Inductive FieldType : Type := TString | TNumber.

Record Field : Type := {
  field_name : string;
  field_type : FieldType;
  field_optional : bool
}.

Definition get_movie_info_parameters : list Field :=
  [{| field_name := "imdbId"; field_type := TString; field_optional := false |}].

Definition get_movie_cast_parameters : list Field :=
  [{| field_name := "imdbId"; field_type := TString; field_optional := false |}].

Definition search_movie_title_parameters : list Field :=
  [{| field_name := "title"; field_type := TString; field_optional := false |}].

Definition optional_field (name : string) (type : FieldType) : Field :=
  {| field_name := name; field_type := type; field_optional := true |}.

Definition filter_movies_parameters : list Field :=
  [optional_field "MinRating" TNumber; optional_field "MaxRating" TNumber;
   optional_field "MinYear" TNumber; optional_field "MaxYear" TNumber;
   optional_field "MinRevenue" TNumber; optional_field "MaxRevenue" TNumber;
   optional_field "Genre" TString;
   optional_field "MinRuntime" TNumber; optional_field "MaxRuntime" TNumber;
   optional_field "OriginalLanguage" TString;
   optional_field "SpokenLanguage" TString;
   optional_field "Limit" TNumber].

(** [z.string()] takes a string, [z.number()] a number. *)
Definition has_type (type : FieldType) (v : JSValue) : bool :=
  match type, v with
  | TString, JString _ => true
  | TNumber, JNumber _ => true
  | _, _ => false
  end.

(** Whether an object has a property. *)
Definition present (props : list (string * JSValue)) (key : string) : bool :=
  match lookup key props with
  | JUndefined => false
  | _ => true
  end.

(** The object parser, field by field in the order of the shape: a field the
    arguments lack is left out when optional and refused when required; a
    field they hold must have the declared type and is copied; properties the
    shape does not name are dropped. *)
Fixpoint parse_fields (shape : list Field) (props : list (string * JSValue))
  : option (list (string * JSValue)) :=
  match shape with
  | [] => Some []
  | field :: rest =>
      match lookup (field_name field) props with
      | JUndefined =>
          if field_optional field then parse_fields rest props else None
      | v =>
          if has_type (field_type field) v
          then match parse_fields rest props with
               | Some bag => Some ((field_name field, v) :: bag)
               | None => None
               end
          else None
      end
  end.

(** [z.object(shape)] on the arguments: anything but an object is refused. *)
Definition parse (shape : list Field) (args : JSValue)
  : option (list (string * JSValue)) :=
  match args with
  | JObject props => parse_fields shape props
  | _ => None
  end.
(** ** Running the generators *)

(** Reading a property of one value either throws for every key or for none. *)
Lemma member_throws_alike (v : JSValue) (key key' : string) (e : Error) :
  member v key = Thrown e -> exists e', member v key' = Thrown e'.
Proof.
  destruct v; simpl; intros H; try discriminate H; exists TypeError; reflexivity.
Qed.

Lemma member_returns_alike (v : JSValue) (key key' : string) (x : JSValue) :
  member v key = Returned x -> exists x', member v key' = Returned x'.
Proof.
  destruct v; simpl; intros H; try discriminate H; eexists; reflexivity.
Qed.

(** Every generator sends exactly one request, the one [provider_request]
    names. *)
Lemma generate_requests (env : Env) (call : ToolCall) (w : World) :
  requests (snd (generate env call w)) = requests w ++ [provider_request env call].
Proof.
  destruct call; run; reflexivity.
Qed.

(** Every generator yields its in-progress value and nothing else. *)
Lemma generate_frames (env : Env) (call : ToolCall) (w : World) :
  frames (snd (generate env call w)) = frames w ++ [in_progress (tool_of call)].
Proof.
  destruct call; run; reflexivity.
Qed.

(** No generator touches the record of calls to the model or the error of the
    UI stream. *)
Lemma generate_oracle_calls (env : Env) (call : ToolCall) (w : World) :
  oracle_calls (snd (generate env call w)) = oracle_calls w
  /\ failure (snd (generate env call w)) = failure w.
Proof.
  destruct call; run; split; reflexivity.
Qed.

(** On a non-success response a generator returns its not-found value and
    leaves the AI state as it found it. *)
Lemma generate_not_ok (env : Env) (call : ToolCall) (w : World)
      (response : Response) :
  fetch_answer env (provider_request env call) = Responded response ->
  ok response = false ->
  fst (generate env call w) = Returned (not_found (tool_of call))
  /\ history (snd (generate env call w)) = history w
  /\ closed (snd (generate env call w)) = closed w.
Proof.
  intros Hfetch Hok. unfold provider_request, provider_url in Hfetch.
  destruct call; autounfold with action; simpl in *; rewrite Hfetch; simpl;
    rewrite Hok; simpl; repeat split; reflexivity.
Qed.


(** Whatever a generator does, the AI state it leaves is the one it found,
    with at most one entry more, and that entry is an assistant's. *)
Lemma generate_history (env : Env) (call : ToolCall) (w : World) :
  history (snd (generate env call w)) = history w
  \/ exists summary,
      history (snd (generate env call w))
      = history w ++ [tool_entry (tool_of call) summary].
Proof.
  destruct call; run;
    solve [ left; reflexivity | right; eexists; reflexivity ].
Qed.

(** The text handler run over a whole text answer. *)
Lemma stream_text_world (deltas : list string) :
  forall (content : string) (w : World),
    fst (stream_text deltas content w) = Returned tt
    /\ history (snd (stream_text deltas content w))
       = history w ++ [assistant_entry (fold_left String.append deltas content)]
    /\ closed (snd (stream_text deltas content w)) = true
    /\ requests (snd (stream_text deltas content w)) = requests w
    /\ oracle_calls (snd (stream_text deltas content w)) = oracle_calls w
    /\ failure (snd (stream_text deltas content w)) = failure w.
Proof.
  induction deltas as [| delta rest IH]; intros content w.
  - autounfold with action; simpl. repeat split; reflexivity.
  - simpl. autounfold with action; simpl.
    match goal with
    | |- context [stream_text rest ?c ?w'] => specialize (IH c w')
    end.
    simpl in IH. exact IH.
Qed.

(** One call of [sendMessage], by what the model answered. *)
Lemma sendMessage_world (env : Env) (message : string) (state : AIState) :
  let w := snd (sendMessage env message (start state)) in
  oracle_calls w = [system_entry :: state ++ [user_entry message]]
  /\ match oracle env (system_entry :: state ++ [user_entry message]) with
     | TextStream deltas =>
         history w
         = (state ++ [user_entry message])
             ++ [assistant_entry (fold_left String.append deltas EmptyString)]
         /\ closed w = true /\ requests w = [] /\ failure w = None
     | ToolSelected call =>
         let g := generate env call (asked state message) in
         history w = history (snd g)
         /\ closed w = closed (snd g)
         /\ requests w = requests (snd g)
         /\ failure w = match fst g with
                        | Returned _ => None
                        | Thrown e => Some e
                        end
     | StreamError | RequestFailed =>
         history w = state ++ [user_entry message]
         /\ closed w = false /\ requests w = []
         /\ failure w = Some OracleFailed
     end.
Proof.
  unfold sendMessage, streamUI, start. autounfold with plumbing. simpl.
  destruct (oracle env (system_entry :: state ++ [user_entry message]))
    as [deltas | call | |] eqn:Horacle; simpl.
  - match goal with
    | |- context [stream_text deltas ?c ?w'] =>
        pose proof (stream_text_world deltas c w') as H;
        destruct (stream_text deltas c w') as [[[] | e] w'']
    end; simpl in *.
    + intuition.
    + destruct H as [H _]. discriminate H.
  - fold (asked state message).
    pose proof (generate_oracle_calls env call (asked state message)) as [Hc Hf].
    destruct (generate env call (asked state message)) as [[node | e] w''];
      simpl in *; rewrite Hc; intuition.
  - intuition.
  - intuition.
Qed.

(** ** The length of the history after a turn *)


(** ** The not-found exit *)

(** C2. Whatever the tool, when the provider answers its request with a
    non-success response the generator returns its not-found value and leaves
    the history and its open/closed flag as they were; a turn that selected
    the tool then ends with the history holding the user's entry and nothing
    more, not closed. *)
Theorem refused_lookup_leaves_history (env : Env) (call : ToolCall)
        (response : Response) :
  fetch_answer env (provider_request env call) = Responded response ->
  ok response = false ->
  (forall w : World,
      fst (generate env call w)
      = Returned
          (div [RText match call with
                      | Call_get_movie_info _ => "Movie not found!"
                      | Call_get_movie_cast _ => "Cast not found!"
                      | Call_search_movie_title _ => "No movies found!"
                      | Call_filter_movies _ =>
                          "No movies found with the specified criteria!"
                      end])
      /\ history (snd (generate env call w)) = history w
      /\ closed (snd (generate env call w)) = closed w)
  /\ (forall (state : AIState) (message : string),
         oracle env (system_entry :: state ++ [user_entry message])
         = ToolSelected call ->
         let w := snd (sendMessage env message (start state)) in
         history w = state ++ [user_entry message]
         /\ closed w = false
         /\ failure w = None).
Proof.
  intros Hfetch Hok. split.
  - intros w.
    destruct (generate_not_ok env call w response Hfetch Hok) as (Hv & Hh & Hc).
    rewrite Hv, Hh, Hc. destruct call; repeat split; reflexivity.
  - intros state message Horacle w.
    pose proof (sendMessage_world env message state) as [_ H].
    fold w in H. rewrite Horacle in H. simpl in H.
    destruct H as (Hh & Hc & _ & Hf).
    destruct (generate_not_ok env call (asked state message) response Hfetch Hok)
      as (Hv & Hh' & Hc').
    rewrite Hh, Hc, Hf, Hv, Hh', Hc'. repeat split; reflexivity.
Qed.


(** [refused_lookup_leaves_history] on the title search for Inception. *)
Lemma refused_lookup_leaves_history_witness :
  fst (generate (scripted StreamError refusal)
         (Call_search_movie_title "Inception") (start initialAIState))
  = Returned (div [RText "No movies found!"])
  /\ history
       (snd (sendMessage
               (scripted (ToolSelected (Call_search_movie_title "Inception"))
                  refusal)
               "find movies called Inception" (start initialAIState)))
     = [user_entry "find movies called Inception"].
Proof.
  split.
  - apply (proj1 (refused_lookup_leaves_history
                    (scripted StreamError refusal)
                    (Call_search_movie_title "Inception")
                    {| ok := false; body := None |} eq_refl eq_refl)
             (start initialAIState)).
  - apply (proj2 (refused_lookup_leaves_history
                    (scripted (ToolSelected (Call_search_movie_title "Inception"))
                       refusal)
                    (Call_search_movie_title "Inception")
                    {| ok := false; body := None |} eq_refl eq_refl)
             initialAIState "find movies called Inception" eq_refl).
Defined.

(** ** The movie-info fragment and its summary *)

(** On a success whose body starts with a record, the movie-info generator
    writes the summary from the record's [Title], when that converts to a
    string, and the heading from its [title]. *)
Lemma get_movie_info_on_record (env : Env) (imdbId : string) (w : World)
      (response : Response) (props : list (string * JSValue))
      (others : list JSValue) :
  fetch_answer env (provider_request env (Call_get_movie_info imdbId))
  = Responded response ->
  ok response = true ->
  body response = Some (JArray (JObject props :: others)) ->
  coercible (lookup "Title" props) = true ->
  fst (get_movie_info_generate env imdbId w)
  = Returned
      (RFragment
         [h2 [RValue (lookup "title" props)];
          p [RValue (lookup "overview" props)];
          p [RText "Release Date: "; RValue (lookup "release_date" props)];
          p [RText "Rating: "; RValue (lookup "vote_average" props)]])
  /\ history (snd (get_movie_info_generate env imdbId w))
     = history w
         ++ [tool_entry get_movie_info
               ("[Information about " ++ ToString (lookup "Title" props) ++ "]")].
Proof.
  intros Hfetch Hok Hbody Htitle. unfold provider_request, provider_url in Hfetch.
  autounfold with action; simpl in *.
  rewrite Hfetch; simpl. rewrite Hok; simpl. rewrite Hbody; simpl.
  unfold coerce. rewrite Htitle; simpl.
  split; reflexivity.
Qed.

(** C3. The turn "tell me about tt1375666", answered by a record whose title
    is stored under [title] (the key the fragment shows): the fragment shows
    Inception with its overview, release date and rating, yet the summary
    committed to the history is "[Information about undefined]", because the
    summary reads the key [Title]. *)
Theorem movie_info_summary_misses_title :
  let env :=
    scripted (ToolSelected (Call_get_movie_info "tt1375666"))
      (success (JArray [inception])) in
  let run := sendMessage env "tell me about tt1375666" (start initialAIState) in
  history (snd run)
  = [user_entry "tell me about tt1375666";
     tool_entry get_movie_info "[Information about undefined]"]
  /\ frames (snd run)
     = [initial;
        div [RText "Loading movie information..."];
        RFragment
          [h2 [RValue (JString "Inception")];
           p [RValue (JString "A thief steals secrets through dreams.")];
           p [RText "Release Date: "; RValue (JString "2010-07-15")];
           p [RText "Rating: "; RValue (JNumber "8.4")]]]
  /\ failure (snd run) = None.
Proof.
  repeat split; reflexivity.
Qed.

(** The other spelling: a record whose title is stored under [Title] gets the
    right summary and a heading with nothing in it. *)
Example movie_info_heading_misses_Title :
  let env :=
    scripted (ToolSelected (Call_get_movie_info "tt1375666"))
      (success (JArray [inception_credits])) in
  let run := generate env (Call_get_movie_info "tt1375666") (start initialAIState) in
  history (snd run)
  = [tool_entry get_movie_info "[Information about Inception]"]
  /\ fst run
     = Returned
         (RFragment
            [h2 [RValue JUndefined];
             p [RValue JUndefined];
             p [RText "Release Date: "; RValue JUndefined];
             p [RText "Rating: "; RValue JUndefined]]).
Proof.
  split; reflexivity.
Qed.

(** ** What the model is sent *)

(** A turn adds the user's entry and at most one assistant entry. *)
Lemma sendMessage_appends (env : Env) (message : string) (state : AIState) :
  exists added,
    history (snd (sendMessage env message (start state)))
    = state ++ user_entry message :: added
    /\ Forall (fun m => Message.role m = assistant) added
    /\ length added <= 1.
Proof.
  pose proof (sendMessage_world env message state) as [_ H]. simpl in H.
  destruct (oracle env (system_entry :: state ++ [user_entry message]))
    as [deltas | call | |].
  - destruct H as (Hh & _). rewrite Hh, <- app_assoc. simpl.
    eexists. split; [reflexivity |]. split; [| simpl; lia].
    constructor; [reflexivity | constructor].
  - destruct H as (Hh & _). rewrite Hh.
    destruct (generate_history env call (asked state message))
      as [Hs | (summary & Hs)]; rewrite Hs; simpl.
    + exists []. split; [reflexivity |]. split; [constructor | simpl; lia].
    + rewrite <- app_assoc. simpl. eexists. split; [reflexivity |].
      split; [| simpl; lia]. constructor; [reflexivity | constructor].
  - destruct H as (Hh & _). rewrite Hh.
    exists []. split; [reflexivity |]. split; [constructor | simpl; lia].
  - destruct H as (Hh & _). rewrite Hh.
    exists []. split; [reflexivity |]. split; [constructor | simpl; lia].
Qed.

(** No sequence of turns from the initial state puts a system entry in the
    history. *)
Lemma after_turns_no_system (turns : list Turn) :
  forall state : AIState,
    Forall (fun m => Message.role m <> system) state ->
    Forall (fun m => Message.role m <> system) (after_turns turns state).
Proof.
  induction turns as [| turn rest IH]; intros state Hstate; simpl.
  - exact Hstate.
  - apply IH. unfold after_turn.
    destruct (sendMessage_appends (turn_env turn) (turn_message turn) state)
      as (added & Hh & Hroles & _).
    destruct (closed _); [| exact Hstate].
    rewrite Hh. apply Forall_app. split; [exact Hstate |].
    constructor; [discriminate |].
    eapply Forall_impl; [| exact Hroles].
    intros m Hm. rewrite Hm. discriminate.
Qed.

(** C4. After any sequence of turns from the initial state, the one message
    list a turn sends to the model is: first the entry with role system, no
    id and no name, an empty list of tool invocations and the fixed prompt as
    content, then the whole history as it stands at that moment (everything
    earlier turns left, then the new user entry), nothing cut. The turn only
    adds entries that are not the system's, so the history never holds a
    system entry. *)
Theorem oracle_receives_system_then_history (turns : list Turn) (env : Env)
        (message : string) :
  let before := after_turns turns initialAIState in
  let w := snd (sendMessage env message (start before)) in
  oracle_calls w
  = [Message.make None None system
       ("You are a movie bot and you can help users get information about movies.

Messages inside [] means that it's a UI element or a user event. For example:
- "
        ++ String "034"%char
             ("[Information about Inception]"
              ++ String "034"%char
                   " means that the interface of the movie information about Inception is shown to the user.

If the user wants information about a movie, call `get_movie_info` to show the information.
If the user wants the cast of a movie, call `get_movie_cast` to show the cast.
If the user wants to search for movies by title, call `search_movie_title`.
If the user wants to filter movies by criteria, call `filter_movies`.
If the user wants to do anything else, it is an impossible task, so you should respond that you are a demo and cannot do that.

Besides getting information about movies, you can also chat with users.
"))
       (Some [])
     :: before ++ [Message.make None None user message None]]
  /\ (exists added,
         history w = before ++ added
         /\ Forall (fun m => Message.role m <> system) added)
  /\ Forall (fun m => Message.role m <> system) (history w).
Proof.
  intros before w.
  pose proof (sendMessage_world env message before) as [Hcalls _].
  fold w in Hcalls.
  destruct (sendMessage_appends env message before) as (added & Hh & Hroles & _).
  fold w in Hh.
  assert (Hadded : Forall (fun m => Message.role m <> system)
                     (user_entry message :: added)).
  { constructor; [discriminate |].
    eapply Forall_impl; [| exact Hroles]. intros m Hm. rewrite Hm. discriminate. }
  split; [exact Hcalls |]. split.
  - exists (user_entry message :: added). split; assumption.
  - rewrite Hh. apply Forall_app. split; [| exact Hadded].
    apply after_turns_no_system. constructor.
Qed.

(** What [sendMessage] answers its caller: the record of the turn, or, when
    the request to the model fails, the error of that request. *)
Lemma sendMessage_outcome (env : Env) (message : string) (state : AIState) :
  let run := sendMessage env message (start state) in
  fst run
  = match oracle env (system_entry :: state ++ [user_entry message]) with
    | RequestFailed => Thrown OracleFailed
    | _ =>
        Returned
          (UIState.make (now env) assistant
             {| values := frames (snd run); status := ui (snd run) |})
    end.
Proof.
  unfold sendMessage, streamUI, start. autounfold with plumbing. simpl.
  destruct (oracle env (system_entry :: state ++ [user_entry message]))
    as [deltas | call | |]; simpl.
  - match goal with
    | |- context [stream_text deltas ?c ?w'] =>
        destruct (stream_text deltas c w') as [[[] | e] w'']
    end; reflexivity.
  - match goal with
    | |- context [generate env call ?w'] =>
        destruct (generate env call w') as [[node | e] w'']
    end; reflexivity.
  - reflexivity.
  - reflexivity.
Qed.

(** C10. [sendMessage] takes any string, the empty one included, and tests
    nothing about it: whatever the string, the history it leaves starts with
    the old history followed by the entry with role user and that very string
    as content (then at most assistant entries), and the model is called
    once, on the system entry followed by exactly that. What the caller gets
    depends on the model alone: the error of the request when the request to
    the model fails, the record of the turn otherwise. *)
Theorem sendMessage_takes_any_string (env : Env) (state : AIState)
        (message : string) :
  let run := sendMessage env message (start state) in
  (exists added,
      history (snd run)
      = state ++ Message.make None None user message None :: added
      /\ Forall (fun m => Message.role m = assistant) added)
  /\ oracle_calls (snd run)
     = [system_entry :: state ++ [Message.make None None user message None]]
  /\ fst run
     = match
         oracle env
           (system_entry :: state ++ [Message.make None None user message None])
       with
       | RequestFailed => Thrown OracleFailed
       | _ =>
           Returned
             (UIState.make (now env) assistant
                {| values := frames (snd run); status := ui (snd run) |})
       end
  /\ (exists added,
         history (snd (sendMessage env EmptyString (start state)))
         = state ++ Message.make None None user EmptyString None :: added)
  /\ oracle_calls (snd (sendMessage env EmptyString (start state)))
     = [system_entry :: state ++ [Message.make None None user EmptyString None]].
Proof.
  intros run. split; [| split; [| split; [| split]]].
  - destruct (sendMessage_appends env message state) as (added & Hh & Hroles & _).
    exists added. split; [exact Hh | exact Hroles].
  - exact (proj1 (sendMessage_world env message state)).
  - exact (sendMessage_outcome env message state).
  - destruct (sendMessage_appends env EmptyString state) as (added & Hh & _).
    exists added. exact Hh.
  - exact (proj1 (sendMessage_world env EmptyString state)).
Qed.

(** ** The values a generator produces *)

(** A success answered with an empty list: the movie-info generator yields
    its in-progress value and then throws, so no terminal value follows. *)
Lemma movie_info_empty_list_throws :
  let run :=
    generate (scripted (ToolSelected (Call_get_movie_info "tt0000000"))
                (success (JArray [])))
      (Call_get_movie_info "tt0000000") (start initialAIState) in
  frames (snd run) = [div [RText "Loading movie information..."]]
  /\ fst run = Thrown TypeError
  /\ ~ (exists terminal, fst run = Returned terminal).
Proof.
  split; [reflexivity |]. split; [reflexivity |].
  intros [terminal H]. discriminate H.
Qed.

(** A first record makes the reads of its properties return. *)
Lemma member_of_record (props : list (string * JSValue)) (key : string) :
  member (JObject props) key = Returned (lookup key props).
Proof. reflexivity. Qed.

(** The callbacks of the two lists return on records whose key converts. *)
Lemma search_items_on_records (items : list JSValue) :
  forallb (keyed_record "id") items = true ->
  exists node, search_items (JArray items) = Returned node.
Proof.
  intros Hitems. unfold search_items, li.
  match goal with
  | |- context [map_items ?f items] =>
      assert (H : exists nodes, map_items f items = Returned nodes)
  end.
  { induction items as [| item rest IH]; simpl.
    - eexists; reflexivity.
    - simpl in Hitems. apply andb_true_iff in Hitems as [Hitem Hrest].
      destruct item; try discriminate Hitem. simpl in Hitem |- *.
      rewrite Hitem.
      destruct (IH Hrest) as [nodes Hnodes]. rewrite Hnodes.
      eexists; reflexivity. }
  destruct H as [nodes Hnodes]. rewrite Hnodes. eexists; reflexivity.
Qed.

Lemma filter_items_on_records (items : list JSValue) :
  forallb (keyed_record "imdbID") items = true ->
  exists node, filter_items (JArray items) = Returned node.
Proof.
  intros Hitems. unfold filter_items, li.
  match goal with
  | |- context [map_items ?f items] =>
      assert (H : exists nodes, map_items f items = Returned nodes)
  end.
  { induction items as [| item rest IH]; simpl.
    - eexists; reflexivity.
    - simpl in Hitems. apply andb_true_iff in Hitems as [Hitem Hrest].
      destruct item; try discriminate Hitem. simpl in Hitem |- *.
      rewrite Hitem.
      destruct (IH Hrest) as [nodes Hnodes]. rewrite Hnodes.
      eexists; reflexivity. }
  destruct H as [nodes Hnodes]. rewrite Hnodes. eexists; reflexivity.
Qed.

(** C5, as the code has it. Every generator, on every input, produces exactly
    one in-progress value, first. One terminal value follows it on a
    non-success response, and on a success whose body has the shape the
    generator reads: an array of movie records, for the lookups by id with a
    first record (holding a string under [Actors] for the cast), in which
    what the generator turns into text (the [Title] of the lookups by id,
    the [id] or [imdbID] that keys a list item) converts to a string. *)
Theorem generate_in_progress_then_terminal (env : Env) (call : ToolCall)
        (w : World) :
  frames (snd (generate env call w)) = frames w ++ [in_progress (tool_of call)]
  /\ (forall response,
         fetch_answer env (provider_request env call) = Responded response ->
         ok response = false ->
         fst (generate env call w) = Returned (not_found (tool_of call)))
  /\ (forall response value,
         fetch_answer env (provider_request env call) = Responded response ->
         ok response = true ->
         body response = Some value ->
         expected_shape call value = true ->
         exists terminal, fst (generate env call w) = Returned terminal).
Proof.
  split; [apply generate_frames |]. split.
  - intros response Hfetch Hok.
    exact (proj1 (generate_not_ok env call w response Hfetch Hok)).
  - intros response value Hfetch Hok Hbody Hshape.
    unfold provider_request, provider_url in Hfetch.
    destruct call; autounfold with action; simpl in *;
      rewrite Hfetch; simpl; rewrite Hok; simpl; rewrite Hbody; simpl.
    + destruct value as [| | | | | [| [] ?] |]; try discriminate Hshape.
      simpl. unfold coerce. rewrite Hshape. simpl. eexists; reflexivity.
    + destruct value as [| | | | | [| [] ?] |]; try discriminate Hshape.
      simpl. destruct (lookup "Actors" props); try discriminate Hshape.
      simpl. unfold coerce. rewrite Hshape. simpl. eexists; reflexivity.
    + destruct value; try discriminate Hshape.
      destruct (search_items_on_records items Hshape) as [node Hnode].
      rewrite Hnode. simpl. eexists; reflexivity.
    + destruct value; try discriminate Hshape.
      destruct (filter_items_on_records items Hshape) as [node Hnode].
      rewrite Hnode. simpl. eexists; reflexivity.
Qed.

(** [generate_in_progress_then_terminal] on a refused filter request and on a
    cast lookup answered with one record. *)
Lemma generate_in_progress_then_terminal_witness :
  fst (generate (scripted StreamError refusal)
         (Call_filter_movies action_since_2010) (start initialAIState))
  = Returned (not_found filter_movies)
  /\ exists terminal,
      fst (generate (scripted StreamError (success (JArray [inception_credits])))
             (Call_get_movie_cast "tt1375666") (start initialAIState))
      = Returned terminal.
Proof.
  split.
  - apply (proj1 (proj2 (generate_in_progress_then_terminal
                           (scripted StreamError refusal)
                           (Call_filter_movies action_since_2010)
                           (start initialAIState)))
             {| ok := false; body := None |}); reflexivity.
  - apply (proj2 (proj2 (generate_in_progress_then_terminal
                           (scripted StreamError
                              (success (JArray [inception_credits])))
                           (Call_get_movie_cast "tt1375666")
                           (start initialAIState)))
             {| ok := true; body := Some (JArray [inception_credits]) |}
             (JArray [inception_credits])); reflexivity.
Defined.

(** ** Determinism *)

(** C8. A generator's outcome (the terminal value it returns, or the error it
    throws) and the summary it adds to the history depend on its parameters
    and on the provider's response only: not on the history it starts from,
    not on the API key, the clock or anything else of the world around it. *)
Theorem generate_depends_on_call_and_response (call : ToolCall)
        (response : Response) (env1 env2 : Env) (w1 w2 : World) :
  fetch_answer env1 (provider_request env1 call) = Responded response ->
  fetch_answer env2 (provider_request env2 call) = Responded response ->
  fst (generate env1 call w1) = fst (generate env2 call w2)
  /\ exists added,
      history (snd (generate env1 call w1)) = history w1 ++ added
      /\ history (snd (generate env2 call w2)) = history w2 ++ added.
Proof.
  intros H1 H2. unfold provider_request, provider_url in H1, H2.
  destruct call; autounfold with action; simpl in *; rewrite H1, H2; simpl;
    repeat (next_case; simpl);
    (split; [reflexivity |]);
    solve [ exists []; rewrite !app_nil_r; split; reflexivity
          | eexists; split; reflexivity ].
Qed.

(** [generate_depends_on_call_and_response] on two worlds that share only the
    provider's answer. *)
Lemma generate_depends_on_call_and_response_witness :
  fst (generate
         (scripted StreamError (success (JArray [inception_credits])))
         (Call_get_movie_cast "tt1375666") (start initialAIState))
  = fst (generate
           {| RAPIDAPI_KEY := "another-key";
              fetch_answer := fun _ => success (JArray [inception_credits]);
              oracle := fun _ => TextStream [];
              now := 0 |}
           (Call_get_movie_cast "tt1375666")
           (start [user_entry "hello"; assistant_entry "Hi"])).
Proof.
  apply (generate_depends_on_call_and_response
           (Call_get_movie_cast "tt1375666")
           {| ok := true; body := Some (JArray [inception_credits]) |}
           (scripted StreamError (success (JArray [inception_credits])))
           {| RAPIDAPI_KEY := "another-key";
              fetch_answer := fun _ => success (JArray [inception_credits]);
              oracle := fun _ => TextStream [];
              now := 0 |}
           (start initialAIState)
           (start [user_entry "hello"; assistant_entry "Hi"])
           eq_refl eq_refl).
Defined.

(** ** The filter summary *)

(** C9. Whenever the provider answers a filter request with a success whose
    body is JSON, the entry committed to the history is the assistant entry
    named [filter_movies] with content "[Movies matching criteria]": two
    invocations with any two parameter bags add the same entry, so the
    history does not record the criteria. *)
Theorem filter_summary_forgets_criteria
        (params1 params2 : list (string * JSValue)) (env1 env2 : Env)
        (w1 w2 : World) (movies1 movies2 : JSValue) :
  fetch_answer env1 (provider_request env1 (Call_filter_movies params1))
  = success movies1 ->
  fetch_answer env2 (provider_request env2 (Call_filter_movies params2))
  = success movies2 ->
  history (snd (filter_movies_generate env1 params1 w1))
  = history w1
      ++ [Message.make None (Some filter_movies) assistant
            "[Movies matching criteria]" None]
  /\ history (snd (filter_movies_generate env2 params2 w2))
     = history w2
         ++ [Message.make None (Some filter_movies) assistant
               "[Movies matching criteria]" None].
Proof.
  intros H1 H2. unfold provider_request, provider_url in H1, H2.
  autounfold with action; simpl in *. rewrite H1, H2. simpl.
  split; destruct (filter_items _); reflexivity.
Qed.

(** [filter_summary_forgets_criteria] on two different parameter bags. *)
Lemma filter_summary_forgets_criteria_witness :
  history
    (snd (filter_movies_generate
            (scripted StreamError (success (JArray [inception_credits])))
            action_since_2010 (start initialAIState)))
  = history
      (snd (filter_movies_generate
              (scripted StreamError (success (JArray [])))
              [("Genre", JString "comedy"); ("Limit", JNumber "5")]
              (start initialAIState))).
Proof.
  destruct (filter_summary_forgets_criteria
              action_since_2010
              [("Genre", JString "comedy"); ("Limit", JNumber "5")]
              (scripted StreamError (success (JArray [inception_credits])))
              (scripted StreamError (success (JArray [])))
              (start initialAIState) (start initialAIState)
              (JArray [inception_credits]) (JArray [])
              eq_refl eq_refl) as [H1 H2].
  rewrite H1, H2. reflexivity.
Defined.

(** ** Splitting and joining the cast *)

Lemma append_empty (s : string) : (s ++ EmptyString)%string = s.
Proof.
  induction s as [| c s IH]; simpl; [reflexivity | now rewrite IH].
Qed.

Lemma append_associative (a b c : string) :
  ((a ++ b) ++ c)%string = (a ++ (b ++ c))%string.
Proof.
  induction a as [| x a IH]; simpl; [reflexivity | now rewrite IH].
Qed.

Lemma length_append (a b : string) :
  String.length (a ++ b) = String.length a + String.length b.
Proof.
  induction a as [| x a IH]; simpl; [reflexivity | now rewrite IH].
Qed.

(** A prefix can be cut off and put back. *)
Lemma prefix_drop (a : string) :
  forall s : string,
    String.prefix a s = true -> (a ++ drop (String.length a) s)%string = s.
Proof.
  induction a as [| x a IH]; intros s H; simpl.
  - reflexivity.
  - destruct s as [| y s]; simpl in H; [discriminate H |].
    destruct (ascii_dec x y) as [-> | _]; [| discriminate H].
    simpl. now rewrite IH.
Qed.

Lemma prefix_append (a : string) :
  forall s t : string,
    String.prefix a s = true -> String.prefix a (s ++ t) = true.
Proof.
  induction a as [| x a IH]; intros s t H.
  - destruct (s ++ t)%string; reflexivity.
  - destruct s as [| y s]; simpl in H; [discriminate H |].
    simpl. destruct (ascii_dec x y); [now apply IH | discriminate H].
Qed.

Section SplitJoin.

Variable sep : string.
Hypothesis sep_not_empty : sep <> EmptyString.

Lemma split_from_not_nil (s : string) :
  forall (skip : nat) (cur : string), split_from sep skip cur s <> [].
Proof.
  induction s as [| c rest IH]; intros skip cur; cbn [split_from].
  - discriminate.
  - destruct skip; [| apply IH].
    destruct (String.prefix sep (String c rest)); [discriminate | apply IH].
Qed.

Lemma join_cons (piece : string) (pieces : list string) :
  pieces <> [] ->
  join sep (piece :: pieces) = (piece ++ sep ++ join sep pieces)%string.
Proof.
  destruct pieces; [intros H; now contradict H | reflexivity].
Qed.

(** Joining what the scan produced gives back what the scan read. *)
Lemma join_split_from (s : string) :
  forall (skip : nat) (cur : string),
    join sep (split_from sep skip cur s) = (cur ++ drop skip s)%string.
Proof.
  induction s as [| c rest IH]; intros skip cur.
  - destruct skip; simpl; now rewrite append_empty.
  - destruct skip as [| k]; [| simpl; apply IH].
    cbn [split_from].
    destruct (String.prefix sep (String c rest)) eqn:Hprefix.
    + rewrite join_cons by apply split_from_not_nil.
      rewrite IH. simpl.
      apply prefix_drop in Hprefix.
      destruct sep as [| x sep']; [now contradict sep_not_empty |].
      simpl in Hprefix. simpl. rewrite Nat.sub_0_r.
      injection Hprefix as -> Hrest. now rewrite Hrest.
    + rewrite IH. simpl. rewrite append_associative. reflexivity.
Qed.

Lemma join_split (s : string) : join sep (split sep s) = s.
Proof.
  unfold split. rewrite join_split_from. reflexivity.
Qed.

Lemma occurs_within_step (n : nat) (c : ascii) (s : string) :
  occurs_within (S n) sep (String c s)
  = String.prefix sep (String c s) || occurs_within n sep s.
Proof. reflexivity. Qed.

(** Looking one position further adds the test at that position. *)
Lemma occurs_within_next (a : string) :
  forall s : string,
    occurs_within (S (String.length a)) sep (a ++ s)
    = occurs_within (String.length a) sep (a ++ s) || String.prefix sep s.
Proof.
  induction a as [| x a IH]; intros s.
  - cbn [String.length append occurs_within].
    destruct s; rewrite orb_false_r; reflexivity.
  - cbn [String.length append]. rewrite !occurs_within_step, IH.
    now rewrite orb_assoc.
Qed.

(** An occurrence among the first positions of a string is still there when
    the string is extended. *)
Lemma occurs_within_append (n : nat) :
  forall a s : string,
    occurs_within n sep a = true -> occurs_within n sep (a ++ s) = true.
Proof.
  induction n as [| n IH]; intros a s H; simpl in *; [discriminate H |].
  apply orb_true_iff in H as [H | H].
  - now rewrite (prefix_append sep a s H).
  - destruct a as [| x a]; [discriminate H |].
    simpl. rewrite (IH a s H). apply orb_true_r.
Qed.

Lemma occurs_no_more (cur s : string) :
  occurs_within (String.length cur) sep (cur ++ s) = false ->
  occurs sep cur = false.
Proof.
  intros H. unfold occurs.
  rewrite <- (append_empty cur) at 2. rewrite occurs_within_next.
  rewrite append_empty. apply orb_false_iff. split.
  - destruct (occurs_within (String.length cur) sep cur) eqn:Hin;
      [| reflexivity].
    now rewrite (occurs_within_append _ cur s Hin) in H.
  - destruct sep; [now contradict sep_not_empty | reflexivity].
Qed.

(** No piece of the scan holds the separator. *)
Lemma split_from_pieces (s : string) :
  forall (skip : nat) (cur : string),
    (skip = 0 -> occurs_within (String.length cur) sep (cur ++ s) = false) ->
    (skip <> 0 -> cur = EmptyString) ->
    Forall (fun piece => occurs sep piece = false) (split_from sep skip cur s).
Proof.
  induction s as [| c rest IH]; intros skip cur Hscan Hskip.
  - simpl. constructor; [| constructor].
    destruct skip as [| k].
    + apply (occurs_no_more cur EmptyString). now apply Hscan.
    + rewrite Hskip by discriminate. unfold occurs. simpl.
      destruct sep; [now contradict sep_not_empty | reflexivity].
  - destruct skip as [| k].
    + specialize (Hscan eq_refl). cbn [split_from].
      destruct (String.prefix sep (String c rest)) eqn:Hprefix.
      * constructor; [exact (occurs_no_more cur _ Hscan) |].
        apply IH; [| reflexivity].
        intros _. reflexivity.
      * apply IH; [| intros H; now contradict H].
        intros _. rewrite append_associative. simpl.
        replace (String.length (cur ++ String c EmptyString))
          with (S (String.length cur))
          by (rewrite length_append; simpl; lia).
        rewrite occurs_within_next, Hscan, Hprefix. reflexivity.
    + simpl. rewrite (Hskip ltac:(discriminate)).
      apply IH; [| reflexivity].
      intros _. reflexivity.
Qed.

Lemma split_pieces (s : string) :
  Forall (fun piece => occurs sep piece = false) (split sep s).
Proof.
  apply split_from_pieces; [reflexivity | intros H; now contradict H].
Qed.

End SplitJoin.

Lemma occurs_step (sep : string) (c : ascii) (s : string) :
  occurs sep (String c s) = String.prefix sep (String c s) || occurs sep s.
Proof. reflexivity. Qed.

Lemma split_from_without_separator (sep : string) (s : string) :
  forall cur : string,
    occurs sep s = false -> split_from sep 0 cur s = [(cur ++ s)%string].
Proof.
  induction s as [| c rest IH]; intros cur H.
  - simpl. now rewrite append_empty.
  - rewrite occurs_step in H. apply orb_false_iff in H as [Hprefix Hrest].
    cbn [split_from]. rewrite Hprefix, (IH _ Hrest), append_associative.
    reflexivity.
Qed.

Lemma split_from_with_separator (sep : string) (s : string) :
  sep <> EmptyString ->
  forall cur : string,
    occurs sep s = true -> 2 <= length (split_from sep 0 cur s).
Proof.
  intros Hsep. induction s as [| c rest IH]; intros cur H.
  - destruct sep; [now contradict Hsep | discriminate H].
  - rewrite occurs_step in H. cbn [split_from].
    destruct (String.prefix sep (String c rest)) eqn:Hprefix.
    + pose proof (split_from_not_nil sep rest (String.length sep - 1) EmptyString)
        as Hnil.
      destruct (split_from sep (String.length sep - 1) EmptyString rest);
        [now contradict Hnil | simpl; lia].
    + apply IH. exact H.
Qed.

(** C7. On a success whose body starts with a record holding the cast as one
    string under [Actors], the cast generator splits that string at every
    ", ": the names it works with are the pieces of the split, none of which
    holds the delimiter, two or more when the string holds it, and which
    joined again with ", " read as the provider's string. The fragment it
    returns presents those names joined with ", " in its paragraph, under the
    heading of the record's [Title]; when that [Title] does not convert to a
    string the summary cannot be written and the generator throws. *)
Theorem cast_is_split_then_joined (env : Env) (imdbId : string) (w : World)
        (response : Response) (props : list (string * JSValue))
        (others : list JSValue) (actors : string) :
  fetch_answer env (provider_request env (Call_get_movie_cast imdbId))
  = Responded response ->
  ok response = true ->
  body response = Some (JArray (JObject props :: others)) ->
  lookup "Actors" props = JString actors ->
  cast_names (JArray (JObject props :: others)) = Returned (split ", " actors)
  /\ Forall (fun name => occurs ", " name = false) (split ", " actors)
  /\ (occurs ", " actors = true -> 2 <= length (split ", " actors))
  /\ join ", " (split ", " actors) = actors
  /\ fst (get_movie_cast_generate env imdbId w)
     = (if coercible (lookup "Title" props)
        then Returned
               (div [h2 [RText "Cast of "; RValue (lookup "Title" props)];
                     p [RValue (JString (join ", " (split ", " actors)))]])
        else Thrown TypeError).
Proof.
  intros Hfetch Hok Hbody Hactors. split; [| split; [| split; [| split]]].
  - unfold cast_names. simpl. rewrite Hactors. reflexivity.
  - apply split_pieces. discriminate.
  - intros H. apply split_from_with_separator; [discriminate | exact H].
  - apply join_split. discriminate.
  - unfold provider_request, provider_url in Hfetch.
    autounfold with action; simpl in *.
    rewrite Hfetch; simpl. rewrite Hok; simpl. rewrite Hbody; simpl.
    rewrite Hactors; simpl. unfold coerce.
    destruct (coercible (lookup "Title" props)); reflexivity.
Qed.

Example cast_of_inception_is_two_names :
  split ", " "Leonardo DiCaprio, Joseph Gordon-Levitt"
  = ["Leonardo DiCaprio"; "Joseph Gordon-Levitt"].
Proof. reflexivity. Qed.

(** [cast_is_split_then_joined] on the cast of Inception. *)
Lemma cast_is_split_then_joined_witness :
  cast_names (JArray [inception_credits])
  = Returned ["Leonardo DiCaprio"; "Joseph Gordon-Levitt"]
  /\ fst (get_movie_cast_generate
            (scripted (ToolSelected (Call_get_movie_cast "tt1375666"))
               (success (JArray [inception_credits])))
            "tt1375666" (start [user_entry "who is in tt1375666"]))
     = Returned
         (div [h2 [RText "Cast of "; RValue (JString "Inception")];
               p [RValue (JString
                            (join ", " ["Leonardo DiCaprio";
                                        "Joseph Gordon-Levitt"]))]]).
Proof.
  destruct (cast_is_split_then_joined
              (scripted (ToolSelected (Call_get_movie_cast "tt1375666"))
                 (success (JArray [inception_credits])))
              "tt1375666" (start [user_entry "who is in tt1375666"])
              {| ok := true; body := Some (JArray [inception_credits]) |}
              [("Title", JString "Inception");
               ("Year", JString "2010");
               ("imdbID", JString "tt1375666");
               ("Actors", JString "Leonardo DiCaprio, Joseph Gordon-Levitt")]
              [] "Leonardo DiCaprio, Joseph Gordon-Levitt"
              eq_refl eq_refl eq_refl eq_refl) as (Hnames & _ & _ & _ & Hshown).
  split; [exact Hnames | exact Hshown].
Defined.

(** ** The query string of a filter request *)

Lemma decode_encoded_byte (c : ascii) (t : string) :
  form_decode (encode_byte c ++ t) = String c (form_decode t).
Proof. every_byte c. Qed.

Lemma cut_encoded_byte (c : ascii) (t : string) :
  cut_at "=" (encode_byte c ++ t)
  = ((encode_byte c ++ fst (cut_at "=" t))%string, snd (cut_at "=" t)).
Proof. every_byte c. Qed.

Lemma split_encoded_byte (c : ascii) (t : string) :
  split_on "&" (encode_byte c ++ t)
  = (encode_byte c ++ hd EmptyString (split_on "&" t))%string
      :: tl (split_on "&" t).
Proof. every_byte c. Qed.

Lemma decode_urlencode (s : string) :
  forall t : string, form_decode (urlencode s ++ t) = (s ++ form_decode t)%string.
Proof.
  induction s as [| c s IH]; intros t; simpl; [reflexivity |].
  rewrite append_associative, decode_encoded_byte, IH. reflexivity.
Qed.

Lemma cut_urlencode (s : string) :
  forall t : string,
    cut_at "=" (urlencode s ++ t)
    = ((urlencode s ++ fst (cut_at "=" t))%string, snd (cut_at "=" t)).
Proof.
  induction s as [| c s IH]; intros t; cbn [urlencode].
  - simpl. destruct (cut_at "=" t); reflexivity.
  - rewrite append_associative, cut_encoded_byte, IH. simpl.
    rewrite append_associative. reflexivity.
Qed.

Lemma split_urlencode (s : string) :
  forall t : string,
    split_on "&" (urlencode s ++ t)
    = (urlencode s ++ hd EmptyString (split_on "&" t))%string
        :: tl (split_on "&" t).
Proof.
  induction s as [| c s IH]; intros t; cbn [urlencode].
  - simpl. destruct t as [| a t]; [reflexivity |].
    simpl. destruct (Ascii.eqb a "&"); reflexivity.
  - rewrite append_associative, split_encoded_byte, IH. simpl.
    rewrite append_associative. reflexivity.
Qed.

Lemma pair_text_read_back (kv : string * string) :
  (form_decode (fst (cut_at "=" (pair_text kv))),
   form_decode (snd (cut_at "=" (pair_text kv)))) = kv.
Proof.
  destruct kv as [k v]. unfold pair_text. simpl.
  rewrite cut_urlencode. simpl.
  rewrite <- (append_empty (urlencode k)) at 1.
  rewrite <- (append_empty (urlencode v)).
  rewrite !append_associative. simpl.
  rewrite !decode_urlencode. simpl. now rewrite !append_empty.
Qed.

Lemma pair_text_not_empty (kv : string * string) :
  String.eqb (pair_text kv) EmptyString = false.
Proof.
  unfold pair_text. destruct (urlencode (fst kv)); reflexivity.
Qed.

Lemma split_pair_text (kv : string * string) (t : string) :
  split_on "&" (pair_text kv ++ t)
  = (pair_text kv ++ hd EmptyString (split_on "&" t))%string
      :: tl (split_on "&" t).
Proof.
  unfold pair_text. rewrite !append_associative, split_urlencode.
  simpl. rewrite split_urlencode. reflexivity.
Qed.

(** Cutting the joined pairs at [&] gives the pairs back. *)
Lemma split_joined_pairs (pairs : list (string * string)) :
  pairs <> [] ->
  split_on "&" (join "&" (map pair_text pairs)) = map pair_text pairs.
Proof.
  induction pairs as [| kv rest IH]; intros Hpairs; [now contradict Hpairs |].
  destruct rest as [| kv' rest].
  - simpl. rewrite <- (append_empty (pair_text kv)) at 1.
    rewrite split_pair_text. simpl. now rewrite append_empty.
  - change (join "&" (map pair_text (kv :: kv' :: rest)))
      with (pair_text kv ++ "&" ++ join "&" (map pair_text (kv' :: rest)))%string.
    rewrite split_pair_text.
    change ("&" ++ join "&" (map pair_text (kv' :: rest)))%string
      with (String "&" (join "&" (map pair_text (kv' :: rest)))).
    cbn [split_on]. rewrite Ascii.eqb_refl. cbn [hd tl].
    rewrite append_empty, IH by discriminate. reflexivity.
Qed.

(** Reading a written query gives back the pairs that were written. *)
Lemma parse_query_toString (pairs : list (string * string)) :
  parse_query (URLSearchParams_toString pairs) = pairs.
Proof.
  unfold parse_query, URLSearchParams_toString.
  destruct pairs as [| kv rest]; [reflexivity |].
  rewrite split_joined_pairs by discriminate.
  assert (Hkeep : forall l,
             filter (fun piece => negb (String.eqb piece EmptyString))
               (map pair_text l) = map pair_text l).
  { induction l as [| x l IHl]; simpl; [reflexivity |].
    rewrite pair_text_not_empty. simpl. now rewrite IHl. }
  rewrite Hkeep, map_map.
  rewrite <- (map_id (kv :: rest)) at 2.
  apply map_ext. intros x. apply pair_text_read_back.
Qed.

(** C6. The one request a filter invocation sends goes to the Filter endpoint
    with a query string that the provider reads back as exactly the fields of
    the parameter bag, each once, in order, with its value as a string: a
    name is in the query if and only if the bag holds it. *)
Theorem filter_query_holds_the_bag (env : Env) (params : list (string * JSValue))
        (w : World) :
  exists query,
    requests (snd (filter_movies_generate env params w))
    = requests w
        ++ [{| url := "https://moviedatabase8.p.rapidapi.com/Filter?" ++ query;
               headers := rapidapi_headers env |}]
    /\ parse_query query = map (fun kv => (fst kv, ToString (snd kv))) params
    /\ map fst (parse_query query) = map fst params.
Proof.
  exists (URLSearchParams_toString (URLSearchParams params)).
  split; [| split].
  - exact (generate_requests env (Call_filter_movies params) w).
  - apply parse_query_toString.
  - rewrite parse_query_toString. unfold URLSearchParams.
    rewrite map_map. reflexivity.
Qed.

Example action_since_2010_query :
  URLSearchParams_toString (URLSearchParams action_since_2010)
  = "Genre=action&MinYear=2010&MinRating=7".
Proof. reflexivity. Qed.

(** * Further properties of the action *)

(** ** A turn, by the answer of the model *)

(** On a text answer the turn is the text handler run over the pieces, from
    the state the model was asked in. *)
Lemma sendMessage_on_text (env : Env) (message : string) (state : AIState)
      (deltas : list string) :
  oracle env (system_entry :: state ++ [user_entry message]) = TextStream deltas ->
  snd (sendMessage env message (start state))
  = snd (stream_text deltas EmptyString (asked state message)).
Proof.
  intros Horacle.
  unfold sendMessage, streamUI, start. autounfold with plumbing. simpl.
  rewrite Horacle. simpl. fold (asked state message).
  pose proof (stream_text_world deltas EmptyString (asked state message)) as [H _].
  destruct (stream_text deltas EmptyString (asked state message)) as [[[] | e] w'];
    [reflexivity | discriminate H].
Qed.

(** On a tool selection the turn is the tool's generator run from the state
    the model was asked in, followed by ending the UI stream on what it
    returned; what it threw is left unhandled. *)
Lemma sendMessage_on_tool (env : Env) (message : string) (state : AIState)
      (call : ToolCall) :
  oracle env (system_entry :: state ++ [user_entry message]) = ToolSelected call ->
  snd (sendMessage env message (start state))
  = match generate env call (asked state message) with
    | (Returned final, w') => snd (finish final w')
    | (Thrown e, w') => snd (unhandled e w')
    end.
Proof.
  intros Horacle.
  unfold sendMessage, streamUI, start. autounfold with plumbing. simpl.
  rewrite Horacle. simpl. fold (asked state message).
  destruct (generate env call (asked state message)) as [[final | e] w'];
    reflexivity.
Qed.

Lemma fold_left_append (deltas : list string) :
  forall content : string,
    fold_left String.append deltas content
    = (content ++ whole_text deltas)%string.
Proof.
  induction deltas as [| delta rest IH]; intros content; simpl.
  - now rewrite append_empty.
  - rewrite IH, append_associative. reflexivity.
Qed.

(** The values the text handler shows: one per piece, then the whole text. *)
Lemma stream_text_frames (deltas : list string) :
  forall (content : string) (w : World),
    (exists shown,
        frames (snd (stream_text deltas content w))
        = frames w ++ shown
            ++ [div [RValue (JString (content ++ whole_text deltas))]]
        /\ length shown = length deltas)
    /\ slept (snd (stream_text deltas content w)) = slept w.
Proof.
  induction deltas as [| delta rest IH]; intros content w.
  - autounfold with action; simpl. rewrite append_empty. split; [| reflexivity].
    exists []. split; reflexivity.
  - simpl. autounfold with action; simpl.
    match goal with
    | |- context [stream_text rest ?c ?w'] =>
        destruct (IH c w') as [(shown & Hframes & Hlength) Hslept]
    end.
    simpl in Hframes, Hslept. rewrite Hframes, Hslept.
    rewrite append_associative. split; [| reflexivity].
    exists (div [RValue (JString (content ++ delta))] :: shown).
    rewrite <- app_assoc. simpl. split; [reflexivity | now rewrite Hlength].
Qed.

(** X1. A text answer that arrives in pieces is committed once, whole: the
    history gains the user's entry and one nameless assistant entry holding
    the pieces joined in order; the UI shows the placeholder, one value per
    piece and last the whole text; no request is sent and nothing waits. *)
Theorem text_answer_is_committed_whole (env : Env) (state : AIState)
        (message : string) (deltas : list string) :
  oracle env (system_entry :: state ++ [user_entry message]) = TextStream deltas ->
  let w := snd (sendMessage env message (start state)) in
  history w
  = state ++ [user_entry message;
              Message.make None None assistant (whole_text deltas) None]
  /\ closed w = true
  /\ length (frames w) = length deltas + 2
  /\ last (frames w) initial = div [RValue (JString (whole_text deltas))]
  /\ requests w = [] /\ slept w = 0%Z /\ failure w = None.
Proof.
  intros Horacle w. unfold w. rewrite (sendMessage_on_text _ _ _ _ Horacle).
  destruct (stream_text_world deltas EmptyString (asked state message))
    as (_ & Hh & Hc & Hr & _ & Hf).
  destruct (stream_text_frames deltas EmptyString (asked state message))
    as [(shown & Hframes & Hlength) Hslept].
  rewrite Hh, Hc, Hr, Hf, Hframes, Hslept, fold_left_append. simpl.
  rewrite <- app_assoc. simpl.
  split; [reflexivity |]. split; [reflexivity |]. split; [| split].
  - rewrite length_app. simpl. lia.
  - destruct (shown ++ [div [RValue (JString (whole_text deltas))]]) eqn:E.
    + apply app_eq_nil in E as [_ E]. discriminate E.
    + rewrite <- E. apply last_last.
  - repeat split; reflexivity.
Qed.

(** [text_answer_is_committed_whole] on an answer in two pieces. *)
Lemma text_answer_is_committed_whole_witness :
  history
    (snd (sendMessage (scripted (TextStream ["I am a demo"; " and cannot do that."])
                         refusal)
            "what's the weather today" (start initialAIState)))
  = [user_entry "what's the weather today";
     assistant_entry "I am a demo and cannot do that."].
Proof.
  apply (text_answer_is_committed_whole
           (scripted (TextStream ["I am a demo"; " and cannot do that."]) refusal)
           initialAIState "what's the weather today"
           ["I am a demo"; " and cannot do that."] eq_refl).
Defined.

(** ** Requests and pauses *)

(** X2. A turn never sends more than one request to the provider: none when
    the model answers in text or its stream fails, exactly one when it
    selects a tool, whatever the provider answers; every request carries the
    host header and the API key of the environment. *)
Theorem turn_sends_at_most_one_request (env : Env) (state : AIState)
        (message : string) :
  let w := snd (sendMessage env message (start state)) in
  requests w
  = match oracle env (system_entry :: state ++ [user_entry message]) with
    | ToolSelected call => [provider_request env call]
    | _ => []
    end
  /\ length (requests w) <= 1
  /\ Forall
       (fun request =>
          headers request
          = [("x-rapidapi-host", "moviedatabase8.p.rapidapi.com");
             ("x-rapidapi-key", RAPIDAPI_KEY env)])
       (requests w).
Proof.
  intros w.
  pose proof (sendMessage_world env message state) as [_ H]. fold w in H.
  destruct (oracle env (system_entry :: state ++ [user_entry message]))
    as [deltas | call | |].
  - destruct H as (_ & _ & Hr & _). rewrite Hr.
    split; [reflexivity |]. split; [simpl; lia | constructor].
  - simpl in H. destruct H as (_ & _ & Hr & _).
    rewrite Hr, generate_requests. simpl.
    split; [reflexivity |]. split; [lia |].
    constructor; [reflexivity | constructor].
  - destruct H as (_ & _ & Hr & _). rewrite Hr.
    split; [reflexivity |]. split; [simpl; lia | constructor].
  - destruct H as (_ & _ & Hr & _). rewrite Hr.
    split; [reflexivity |]. split; [simpl; lia | constructor].
Qed.

(** X3. The one-second pause belongs to the success path: a generator waits
    1000 ms or not at all; it does not wait when the provider refuses or
    cannot be reached, and it has waited whenever it returns on a success
    response. *)
Theorem pause_only_on_success (env : Env) (call : ToolCall) (w : World) :
  let g := generate env call w in
  (slept (snd g) = slept w \/ slept (snd g) = (slept w + 1000)%Z)
  /\ (fetch_answer env (provider_request env call) = Rejected ->
      slept (snd g) = slept w)
  /\ (forall response,
         fetch_answer env (provider_request env call) = Responded response ->
         ok response = false -> slept (snd g) = slept w)
  /\ (forall response node,
         fetch_answer env (provider_request env call) = Responded response ->
         ok response = true -> fst g = Returned node ->
         slept (snd g) = (slept w + 1000)%Z).
Proof.
  unfold provider_request, provider_url.
  destruct call; run;
    (split; [solve [left; reflexivity | right; reflexivity] |]);
    (split; [intros H; solve [discriminate H | reflexivity] |]);
    (split; [intros ? H1 H2; try discriminate H1;
             solve [ reflexivity
                   | injection H1 as <-; congruence ]
            | intros ? ? H1 H2 H3; try discriminate H3; try discriminate H1;
              solve [ reflexivity
                    | injection H1 as <-; congruence ]]).
Qed.

(** [pause_only_on_success] on a refused search and on a cast lookup that
    succeeds. *)
Lemma pause_only_on_success_witness :
  slept (snd (generate (scripted StreamError refusal)
                (Call_search_movie_title "Inception") (start initialAIState)))
  = 0%Z
  /\ slept (snd (generate
                   (scripted StreamError (success (JArray [inception_credits])))
                   (Call_get_movie_cast "tt1375666") (start initialAIState)))
     = 1000%Z.
Proof.
  split.
  - apply (proj1 (proj2 (proj2 (pause_only_on_success
                                  (scripted StreamError refusal)
                                  (Call_search_movie_title "Inception")
                                  (start initialAIState))))
             {| ok := false; body := None |} eq_refl eq_refl).
  - apply (proj2 (proj2 (proj2 (pause_only_on_success
                                  (scripted StreamError
                                     (success (JArray [inception_credits])))
                                  (Call_get_movie_cast "tt1375666")
                                  (start initialAIState))))
             {| ok := true; body := Some (JArray [inception_credits]) |}
             (div [h2 [RText "Cast of "; RValue (JString "Inception")];
                   p [RValue (JString "Leonardo DiCaprio, Joseph Gordon-Levitt")]])
             eq_refl eq_refl eq_refl).
Defined.

(** ** When a generator throws *)

(** A value whose property read returned lets every other property read
    return. *)
Lemma member_never_both (v : JSValue) (key key' : string) (x : JSValue)
      (e : Error) :
  member v key = Returned x -> member v key' = Thrown e -> False.
Proof.
  destruct v; simpl; intros H H'; discriminate H || discriminate H'.
Qed.

(** X4. The two lookups by id commit last: when the movie-info or the
    movie-cast generator throws, whatever the reason, the history and its
    open/closed flag are as the generator found them. *)
Theorem lookup_by_id_throws_uncommitted (env : Env) (call : ToolCall)
        (w : World) (e : Error) :
  tool_of call = get_movie_info \/ tool_of call = get_movie_cast ->
  fst (generate env call w) = Thrown e ->
  history (snd (generate env call w)) = history w
  /\ closed (snd (generate env call w)) = closed w.
Proof.
  intros [Htool | Htool]; destruct call; try discriminate Htool; clear Htool;
    run; intros H; try discriminate H;
    solve [ split; reflexivity
          | exfalso; eauto using member_never_both ].
Qed.

(** [lookup_by_id_throws_uncommitted] on a movie-info lookup answered with an
    empty list. *)
Lemma lookup_by_id_throws_uncommitted_witness :
  history
    (snd (generate (scripted StreamError (success (JArray [])))
            (Call_get_movie_info "tt0000000")
            (start [user_entry "tell me about tt0000000"])))
  = [user_entry "tell me about tt0000000"].
Proof.
  apply (lookup_by_id_throws_uncommitted
           (scripted StreamError (success (JArray [])))
           (Call_get_movie_info "tt0000000")
           (start [user_entry "tell me about tt0000000"])
           TypeError (or_introl eq_refl) eq_refl).
Defined.

(** X5. The filter generator commits before it renders: on a success whose
    body is JSON but not an array it closes the history with its summary and
    then throws a [TypeError], so the history records a list that was never
    shown. *)
Theorem filter_commits_before_rendering (env : Env)
        (params : list (string * JSValue)) (w : World) (response : Response)
        (value : JSValue) :
  fetch_answer env (provider_request env (Call_filter_movies params))
  = Responded response ->
  ok response = true ->
  body response = Some value ->
  is_array value = false ->
  fst (filter_movies_generate env params w) = Thrown TypeError
  /\ history (snd (filter_movies_generate env params w))
     = history w ++ [tool_entry filter_movies "[Movies matching criteria]"]
  /\ closed (snd (filter_movies_generate env params w)) = true.
Proof.
  intros Hfetch Hok Hbody Harray. unfold provider_request, provider_url in Hfetch.
  autounfold with action; simpl in *.
  rewrite Hfetch; simpl. rewrite Hok; simpl. rewrite Hbody; simpl.
  destruct value; try discriminate Harray; simpl; repeat split; reflexivity.
Qed.

(** [filter_commits_before_rendering] on a body that is an object. *)
Lemma filter_commits_before_rendering_witness :
  fst (filter_movies_generate
         (scripted StreamError (success (JObject [("results", JArray [])])))
         action_since_2010 (start initialAIState))
  = Thrown TypeError.
Proof.
  apply (filter_commits_before_rendering
           (scripted StreamError (success (JObject [("results", JArray [])])))
           action_since_2010 (start initialAIState)
           {| ok := true; body := Some (JObject [("results", JArray [])]) |}
           (JObject [("results", JArray [])])
           eq_refl eq_refl eq_refl eq_refl).
Defined.

(** X6. The search generator guards its list with [?.]: on a success whose
    body is [null] it commits its summary and returns a fragment with an
    empty list; on a body that is neither [null] nor an array it commits its
    summary and then throws a [TypeError]. *)
Theorem search_guards_a_null_body (env : Env) (title : string) (w : World)
        (response : Response) (value : JSValue) :
  fetch_answer env (provider_request env (Call_search_movie_title title))
  = Responded response ->
  ok response = true ->
  body response = Some value ->
  is_array value = false ->
  fst (search_movie_title_generate env title w)
  = (if nullish value
     then Returned
            (div [h2 [RText ("Movies matching " ++ dquote);
                      RValue (JString title); RText dquote];
                  ul [RValue JUndefined]])
     else Thrown TypeError)
  /\ history (snd (search_movie_title_generate env title w))
     = history w
         ++ [tool_entry search_movie_title
               ("[Movies matching " ++ dquote ++ title ++ dquote ++ "]")]
  /\ closed (snd (search_movie_title_generate env title w)) = true.
Proof.
  intros Hfetch Hok Hbody Harray. unfold provider_request, provider_url in Hfetch.
  autounfold with action; simpl in *.
  rewrite Hfetch; simpl. rewrite Hok; simpl. rewrite Hbody; simpl.
  destruct value; try discriminate Harray; simpl; repeat split; reflexivity.
Qed.

(** [search_guards_a_null_body] on a body that is [null]. *)
Lemma search_guards_a_null_body_witness :
  fst (search_movie_title_generate
         (scripted StreamError (success JNull)) "Inception"
         (start initialAIState))
  = Returned
      (div [h2 [RText ("Movies matching " ++ dquote);
                RValue (JString "Inception"); RText dquote];
            ul [RValue JUndefined]]).
Proof.
  apply (search_guards_a_null_body
           (scripted StreamError (success JNull)) "Inception"
           (start initialAIState)
           {| ok := true; body := Some JNull |} JNull
           eq_refl eq_refl eq_refl eq_refl).
Defined.

(** ** The two lists *)

Lemma map_items_returns (f : JSValue -> Outcome ReactNode)
      (g : JSValue -> ReactNode) (items : list JSValue) :
  (forall x, In x items -> f x = Returned (g x)) ->
  map_items f items = Returned (map g items).
Proof.
  induction items as [| x rest IH]; intros H; simpl; [reflexivity |].
  rewrite (H x (or_introl eq_refl)), IH; [reflexivity |].
  intros y Hy. apply H. now right.
Qed.

Lemma map_items_throws (f : JSValue -> Outcome ReactNode)
      (fine : JSValue -> bool) (g : JSValue -> ReactNode)
      (items : list JSValue) :
  (forall x, f x = if fine x then Returned (g x) else Thrown TypeError) ->
  forallb fine items = false ->
  map_items f items = Thrown TypeError.
Proof.
  intros Hf. induction items as [| x rest IH]; intros H; simpl in *;
    [discriminate H |].
  rewrite Hf. destruct (fine x); simpl in *; [| reflexivity].
  now rewrite (IH H).
Qed.

(** What each callback does with one movie. *)
Lemma search_callback (movie : JSValue) :
  match member movie "id", member movie "title" with
  | Returned id, Returned title => li id [RValue title]
  | Thrown e, _ | _, Thrown e => Thrown e
  end
  = if listable "id" movie then Returned (search_item movie)
    else Thrown TypeError.
Proof.
  destruct movie; reflexivity.
Qed.

Lemma filter_callback (movie : JSValue) :
  match member movie "imdbID", member movie "Title", member movie "Year" with
  | Returned imdbID, Returned Title, Returned Year =>
      li imdbID [RValue Title; RText " ("; RValue Year; RText ")"]
  | Thrown e, _, _ | _, Thrown e, _ | _, _, Thrown e => Thrown e
  end
  = if listable "imdbID" movie then Returned (filter_item movie)
    else Thrown TypeError.
Proof.
  destruct movie; reflexivity.
Qed.

Lemma search_items_on_values (items : list JSValue) :
  forallb (listable "id") items = true ->
  search_items (JArray items) = Returned (RArray (map search_item items)).
Proof.
  intros H. unfold search_items.
  rewrite (map_items_returns _ search_item); [reflexivity |].
  intros x Hx. rewrite search_callback.
  rewrite forallb_forall in H. now rewrite (H x Hx).
Qed.

Lemma filter_items_on_values (items : list JSValue) :
  forallb (listable "imdbID") items = true ->
  filter_items (JArray items) = Returned (RArray (map filter_item items)).
Proof.
  intros H. unfold filter_items.
  rewrite (map_items_returns _ filter_item); [reflexivity |].
  intros x Hx. rewrite filter_callback.
  rewrite forallb_forall in H. now rewrite (H x Hx).
Qed.

(** X7. The list of a search answer has one item per element of the array,
    in the provider's order, keyed by the string form of the element's [id]
    and showing its [title]; an element without these properties gives an
    item with no key and no text. Building the list throws a [TypeError]
    exactly when some element is [null] or has an [id] that does not convert
    to a string. *)
Theorem search_list_follows_the_array (items : list JSValue) :
  (forallb (listable "id") items = true ->
   search_items (JArray items) = Returned (RArray (map search_item items)))
  /\ (forallb (listable "id") items = false ->
      search_items (JArray items) = Thrown TypeError).
Proof.
  split; intros H.
  - now apply search_items_on_values.
  - unfold search_items.
    now rewrite (map_items_throws _ (listable "id") search_item items
                   search_callback H).
Qed.

(** X8. The list of a filter answer has one item per element of the array, in
    the provider's order, keyed by the string form of the element's [imdbID]
    and showing its [Title], then its [Year] in parentheses. Building the
    list throws a [TypeError] exactly when some element is [null] or has an
    [imdbID] that does not convert to a string. *)
Theorem filter_list_follows_the_array (items : list JSValue) :
  (forallb (listable "imdbID") items = true ->
   filter_items (JArray items) = Returned (RArray (map filter_item items)))
  /\ (forallb (listable "imdbID") items = false ->
      filter_items (JArray items) = Thrown TypeError).
Proof.
  split; intros H.
  - now apply filter_items_on_values.
  - unfold filter_items.
    now rewrite (map_items_throws _ (listable "imdbID") filter_item items
                   filter_callback H).
Qed.

(** A record of the search endpoint shown by both lists: the search list
    finds its key and text, the filter list finds nothing under the names it
    reads. A key that is an object holding a [toString] property stops the
    search list. *)
Example lists_read_different_keys :
  let movie := JObject [("id", JNumber "27205"); ("title", JString "Inception")] in
  search_items (JArray [movie])
  = Returned (RArray [RElement "li" [] (Some "27205") [RValue (JString "Inception")]])
  /\ filter_items (JArray [movie])
     = Returned (RArray [RElement "li" [] None
                           [RValue JUndefined; RText " (";
                            RValue JUndefined; RText ")"]])
  /\ search_items
       (JArray [JObject [("id", JObject [("toString", JNumber "1")]);
                         ("title", JString "Inception")]])
     = Thrown TypeError.
Proof. repeat split; reflexivity. Qed.

(** ** When the lookups by id return *)

(** X9. On a success with a JSON body the movie-info generator returns
    exactly when the body has a first element that is neither [null] nor
    [undefined] and whose [Title] converts to a string (as a missing, text or
    number [Title] does); it asks nothing more of that element, so a record
    with none of the fields still returns a fragment. *)
Theorem movie_info_returns_iff (env : Env) (imdbId : string) (w : World)
        (response : Response) (value : JSValue) :
  fetch_answer env (provider_request env (Call_get_movie_info imdbId))
  = Responded response ->
  ok response = true ->
  body response = Some value ->
  (exists node, fst (get_movie_info_generate env imdbId w) = Returned node)
  <-> (exists record,
          first value = Returned record
          /\ nullish record = false
          /\ coercible (lookup "Title" (props_of record)) = true).
Proof.
  intros Hfetch Hok Hbody. unfold provider_request, provider_url in Hfetch.
  autounfold with action; simpl in *.
  rewrite Hfetch; simpl. rewrite Hok; simpl. rewrite Hbody; simpl.
  destruct (first value) as [record | e]; simpl.
  - destruct record; simpl; unfold coerce; simpl;
      try (destruct (coercible (lookup "Title" props)) eqn:Htitle; simpl);
      split;
      solve [ intros [node H]; discriminate H
            | intros [record (H & H' & H'')]; injection H as <-;
              simpl in *; congruence
            | intros _; eexists; reflexivity
            | intros _; eexists; repeat split; (reflexivity || eassumption) ].
  - split.
    + intros [node H]. discriminate H.
    + intros [record [H _]]. discriminate H.
Qed.

(** [movie_info_returns_iff] on a body whose first element is an empty
    record. *)
Lemma movie_info_returns_iff_witness :
  exists node,
    fst (get_movie_info_generate
           (scripted StreamError (success (JArray [JObject []])))
           "tt1375666" (start initialAIState))
    = Returned node.
Proof.
  apply (proj2 (movie_info_returns_iff
                  (scripted StreamError (success (JArray [JObject []])))
                  "tt1375666" (start initialAIState)
                  {| ok := true; body := Some (JArray [JObject []]) |}
                  (JArray [JObject []]) eq_refl eq_refl eq_refl)).
  exists (JObject []). repeat split; reflexivity.
Defined.

(** X10. The movie-cast generator needs a string under [Actors]: on a success
    whose first element has anything else there (nothing, [null], a list of
    names) it throws a [TypeError] before it waits or commits, so the history
    is as it found it. *)
Theorem cast_needs_a_string_of_actors (env : Env) (imdbId : string) (w : World)
        (response : Response) (value record : JSValue) :
  fetch_answer env (provider_request env (Call_get_movie_cast imdbId))
  = Responded response ->
  ok response = true ->
  body response = Some value ->
  first value = Returned record ->
  (forall actors, member record "Actors" <> Returned (JString actors)) ->
  fst (get_movie_cast_generate env imdbId w) = Thrown TypeError
  /\ history (snd (get_movie_cast_generate env imdbId w)) = history w
  /\ closed (snd (get_movie_cast_generate env imdbId w)) = closed w
  /\ slept (snd (get_movie_cast_generate env imdbId w)) = slept w.
Proof.
  intros Hfetch Hok Hbody Hfirst Hactors.
  unfold provider_request, provider_url in Hfetch.
  autounfold with action; simpl in *.
  rewrite Hfetch; simpl. rewrite Hok; simpl. rewrite Hbody; simpl.
  rewrite Hfirst; simpl.
  destruct (member record "Actors") as [actors | e] eqn:Hmember; simpl.
  - destruct actors; simpl; try (repeat split; reflexivity).
    exfalso. exact (Hactors s eq_refl).
  - destruct record; simpl in Hmember; try discriminate Hmember;
      injection Hmember as <-; repeat split; reflexivity.
Qed.

(** [cast_needs_a_string_of_actors] on a record whose cast is a list. *)
Lemma cast_needs_a_string_of_actors_witness :
  fst (get_movie_cast_generate
         (scripted StreamError
            (success (JArray [JObject [("Title", JString "Inception");
                                       ("Actors", JArray [JString "Elliot Page"])]])))
         "tt1375666" (start initialAIState))
  = Thrown TypeError.
Proof.
  apply (cast_needs_a_string_of_actors
           (scripted StreamError
              (success (JArray [JObject [("Title", JString "Inception");
                                         ("Actors", JArray [JString "Elliot Page"])]])))
           "tt1375666" (start initialAIState)
           {| ok := true;
              body := Some (JArray [JObject [("Title", JString "Inception");
                                             ("Actors", JArray [JString "Elliot Page"])]]) |}
           (JArray [JObject [("Title", JString "Inception");
                             ("Actors", JArray [JString "Elliot Page"])]])
           (JObject [("Title", JString "Inception");
                     ("Actors", JArray [JString "Elliot Page"])])
           eq_refl eq_refl eq_refl eq_refl).
  intros actors H. discriminate H.
Defined.

(** ** What becomes of the streamed UI *)

(** The text handler ends the streamed UI. *)
Lemma stream_text_ui (deltas : list string) :
  forall (content : string) (w : World),
    fst (stream_text deltas content w) = Returned tt
    /\ ui (snd (stream_text deltas content w)) = Done.
Proof.
  induction deltas as [| delta rest IH]; intros content w.
  - autounfold with action; simpl. split; reflexivity.
  - simpl. autounfold with action; simpl. apply IH.
Qed.

(** No generator ends the streamed UI itself. *)
Lemma generate_ui (env : Env) (call : ToolCall) (w : World) :
  ui (snd (generate env call w)) = ui w.
Proof.
  destruct call; run; reflexivity.
Qed.

(** ** Turns that are cut short *)

(** X11. When the model selects a tool and the provider cannot be reached, or
    answers a success whose body is not JSON, nothing handles the error the
    generator throws: [sendMessage] still returns its record, whose display
    shows the placeholder and the tool's in-progress value and is never
    ended, neither done nor failed; the history holds the user's entry and
    nothing more, not closed; the turn has not waited. *)
Theorem provider_failure_is_not_handled (env : Env) (state : AIState)
        (message : string) (call : ToolCall) (e : Error) :
  oracle env (system_entry :: state ++ [user_entry message]) = ToolSelected call ->
  (fetch_answer env (provider_request env call) = Rejected /\ e = FetchFailed)
  \/ (exists response,
         fetch_answer env (provider_request env call) = Responded response
         /\ ok response = true /\ body response = None /\ e = SyntaxError) ->
  let run := sendMessage env message (start state) in
  fst run
  = Returned
      (UIState.make (now env) assistant
         {| values := [initial; in_progress (tool_of call)]; status := Open |})
  /\ ui (snd run) = Open
  /\ failure (snd run) = Some e
  /\ frames (snd run) = [initial; in_progress (tool_of call)]
  /\ history (snd run) = state ++ [Message.make None None user message None]
  /\ closed (snd run) = false
  /\ slept (snd run) = 0%Z.
Proof.
  intros Horacle Hprovider run.
  assert (Hworld :
            ui (snd run) = Open
            /\ failure (snd run) = Some e
            /\ frames (snd run) = [initial; in_progress (tool_of call)]
            /\ history (snd run) = state ++ [Message.make None None user message None]
            /\ closed (snd run) = false
            /\ slept (snd run) = 0%Z).
  { unfold run. rewrite (sendMessage_on_tool _ _ _ _ Horacle).
    unfold provider_request, provider_url in Hprovider.
    destruct Hprovider as [[Hfetch ->] | (response & Hfetch & Hok & Hbody & ->)];
      destruct call; autounfold with action; simpl in *;
      rewrite Hfetch; simpl; try (rewrite Hok; simpl; rewrite Hbody; simpl);
      repeat split; reflexivity. }
  split; [| exact Hworld].
  pose proof (sendMessage_outcome env message state) as Hout.
  rewrite Horacle in Hout. fold run in Hout. rewrite Hout.
  destruct Hworld as (Hui & _ & Hframes & _). now rewrite Hui, Hframes.
Qed.

(** [provider_failure_is_not_handled] on a filter request that gets no
    answer. *)
Lemma provider_failure_is_not_handled_witness :
  ui (snd (sendMessage
             (scripted (ToolSelected (Call_filter_movies action_since_2010))
                Rejected)
             "show me action movies after 2010 with rating above 7"
             (start initialAIState)))
  = Open
  /\ failure
       (snd (sendMessage
               (scripted (ToolSelected (Call_filter_movies action_since_2010))
                  Rejected)
               "show me action movies after 2010 with rating above 7"
               (start initialAIState)))
     = Some FetchFailed.
Proof.
  destruct (provider_failure_is_not_handled
              (scripted (ToolSelected (Call_filter_movies action_since_2010))
                 Rejected)
              initialAIState
              "show me action movies after 2010 with rating above 7"
              (Call_filter_movies action_since_2010) FetchFailed eq_refl
              (or_introl (conj eq_refl eq_refl))) as (_ & Hui & Hfailure & _).
  split; [exact Hui | exact Hfailure].
Defined.

(** X12. What becomes of the display [sendMessage] hands back. It always
    starts with the placeholder, and a tool turn shows the tool's in-progress
    value right after it. It is ended as done exactly when the handler of the
    turn returned (the text handler always does, a generator may not), in
    which case something follows the placeholder; it is ended as failed
    exactly when the model's stream reported an error; it stays open for ever
    when a generator throws. When the request to the model fails there is no
    display: [sendMessage] throws, after the user's entry is in. *)
Theorem display_is_ended_by_the_handler (env : Env) (state : AIState)
        (message : string) :
  let run := sendMessage env message (start state) in
  let asked_of := oracle env (system_entry :: state ++ [user_entry message]) in
  fst run
  = match asked_of with
    | RequestFailed => Thrown OracleFailed
    | _ =>
        Returned
          (UIState.make (now env) assistant
             {| values := frames (snd run); status := ui (snd run) |})
    end
  /\ ui (snd run)
     = match asked_of with
       | TextStream _ => Done
       | ToolSelected call =>
           match fst (generate env call (asked state message)) with
           | Returned _ => Done
           | Thrown _ => Open
           end
       | StreamError => Failed OracleFailed
       | RequestFailed => Open
       end
  /\ (exists shown,
         frames (snd run) = initial :: shown
         /\ (ui (snd run) = Done -> shown <> [])
         /\ (forall call,
                asked_of = ToolSelected call ->
                exists rest, shown = in_progress (tool_of call) :: rest)).
Proof.
  intros run asked_of. split; [exact (sendMessage_outcome env message state) |].
  unfold run, asked_of, sendMessage, streamUI, start.
  autounfold with plumbing. simpl.
  destruct (oracle env (system_entry :: state ++ [user_entry message]))
    as [deltas | call | |]; simpl; fold (asked state message).
  - destruct (stream_text_frames deltas EmptyString (asked state message))
      as [(shown & Hframes & _) _].
    pose proof (stream_text_ui deltas EmptyString (asked state message)) as Hui.
    destruct (stream_text deltas EmptyString (asked state message))
      as [[[] | e] w']; simpl in *;
      [| destruct Hui as [Hui _]; discriminate Hui].
    destruct Hui as [_ Hui]. rewrite Hui, Hframes.
    split; [reflexivity |]. eexists. split; [reflexivity |]. split.
    + intros _ H. apply app_eq_nil in H as [_ H]. discriminate H.
    + intros call H. discriminate H.
  - pose proof (generate_frames env call (asked state message)) as Hframes.
    pose proof (generate_ui env call (asked state message)) as Hui.
    destruct (generate env call (asked state message)) as [[final | e] w'];
      simpl in *; rewrite Hframes, ?Hui; simpl;
      (split; [reflexivity |]); eexists; (split; [reflexivity |]); split.
    + intros _ H. discriminate H.
    + intros call' H. injection H as <-. eexists; reflexivity.
    + intros H. discriminate H.
    + intros call' H. injection H as <-. eexists; reflexivity.
  - split; [reflexivity |]. exists []. split; [reflexivity |]. split.
    + intros H. discriminate H.
    + intros call H. discriminate H.
  - split; [reflexivity |]. exists []. split; [reflexivity |]. split.
    + intros H. discriminate H.
    + intros call H. discriminate H.
Qed.

(** ** The history over a session *)





(** ** The summaries *)

Lemma last_char_append_bracket (s : string) :
  last_char (s ++ "]") = Some "]"%char.
Proof.
  induction s as [| c s IH]; [reflexivity |].
  simpl. rewrite IH. destruct (s ++ "]")%string eqn:E; [| reflexivity].
  destruct s; discriminate E.
Qed.

Lemma bracketed_intro (inner : string) :
  bracketed ("[" ++ inner ++ "]") = true.
Proof.
  unfold bracketed.
  change ("[" ++ inner ++ "]")%string with (String "[" (inner ++ "]")).
  change (String "[" (inner ++ "]")) with (String "[" inner ++ "]")%string at 2.
  rewrite last_char_append_bracket. simpl.
  destruct (inner ++ "]")%string; reflexivity.
Qed.

(** X14. Whatever a generator adds to the history is one assistant entry
    named after its tool, with no id, whose content is in the bracket
    notation of the system prompt: it starts with [[] and ends with []]. *)
Theorem summaries_are_bracketed (env : Env) (call : ToolCall) (w : World) :
  history (snd (generate env call w)) = history w
  \/ exists summary,
      history (snd (generate env call w))
      = history w
          ++ [Message.make None (Some (tool_of call)) assistant summary None]
      /\ bracketed summary = true.
Proof.
  destruct call; run; try (left; reflexivity); right.
  all: match goal with
       | |- context [tool_entry get_movie_info _] =>
           match goal with
           | H : coerce _ = Returned ?shown |- _ =>
               exists ("[" ++ ("Information about " ++ shown) ++ "]")%string
           end
       | |- context [tool_entry get_movie_cast _] =>
           match goal with
           | H : coerce _ = Returned ?shown |- _ =>
               exists ("[" ++ ("Cast of " ++ shown) ++ "]")%string
           end
       | |- context [tool_entry search_movie_title _] =>
           exists ("[" ++ ("Movies matching " ++ dquote ++ title ++ dquote) ++ "]")%string
       | |- context [tool_entry filter_movies _] =>
           exists ("[" ++ "Movies matching criteria" ++ "]")%string
       end.
  all: split; [| apply bracketed_intro].
  all: simpl; rewrite ?append_associative; reflexivity.
Qed.

(** ** More on the query string *)

Lemma all_chars_append (test : ascii -> bool) (a b : string) :
  all_chars test (a ++ b) = all_chars test a && all_chars test b.
Proof.
  induction a as [| c a IH]; simpl; [reflexivity |].
  now rewrite IH, andb_assoc.
Qed.

Lemma all_chars_weaken (test test' : ascii -> bool) (s : string) :
  (forall c, test c = true -> test' c = true) ->
  all_chars test s = true -> all_chars test' s = true.
Proof.
  intros Himp. induction s as [| c s IH]; simpl; [reflexivity |].
  intros H. apply andb_true_iff in H as [Hc Hs].
  now rewrite (Himp c Hc), (IH Hs).
Qed.

Lemma encoded_byte_is_safe (c : ascii) :
  all_chars query_safe (encode_byte c) = true.
Proof. every_byte c. Qed.

Lemma urlencode_is_safe (s : string) : all_chars query_safe (urlencode s) = true.
Proof.
  induction s as [| c s IH]; simpl; [reflexivity |].
  now rewrite all_chars_append, encoded_byte_is_safe, IH.
Qed.

(** X15. A query string is made of letters, digits, [*], [-], [.], [_], [+]
    and [%] escapes, with [=] and [&] only where the serializer puts them
    between names, values and pairs: whatever the parameters hold, no space,
    quote, [#], [?], [/] or byte beyond ASCII reaches the URL through the
    query. *)
Theorem query_is_made_of_safe_characters (params : list (string * JSValue)) :
  all_chars
    (fun c => query_safe c || Ascii.eqb c "=" || Ascii.eqb c "&")
    (URLSearchParams_toString (URLSearchParams params)) = true
  /\ Forall
       (fun kv =>
          all_chars query_safe (urlencode (fst kv)) = true
          /\ all_chars query_safe (urlencode (snd kv)) = true)
       (URLSearchParams params).
Proof.
  split.
  - unfold URLSearchParams_toString.
    induction (URLSearchParams params) as [| kv rest IH]; [reflexivity |].
    assert (Hpair : all_chars
                      (fun c => query_safe c || Ascii.eqb c "=" || Ascii.eqb c "&")
                      (pair_text kv) = true).
    { unfold pair_text. rewrite !all_chars_append. simpl.
      rewrite !(all_chars_weaken query_safe _ _
                  (fun c H => eq_trans (f_equal (fun b => b || _ || _) H) eq_refl)
                  (urlencode_is_safe _)).
      reflexivity. }
    destruct rest as [| kv' rest]; [exact Hpair |].
    change (join "&" (map pair_text (kv :: kv' :: rest)))
      with (pair_text kv ++ "&" ++ join "&" (map pair_text (kv' :: rest)))%string.
    rewrite !all_chars_append, Hpair, IH. reflexivity.
  - apply Forall_forall. intros kv _. split; apply urlencode_is_safe.
Qed.

(** X16. The query string keeps its pairs apart: two lists of pairs that are
    written as the same query string are the same list, and two strings with
    the same encoding are the same string. *)
Theorem query_string_is_injective (pairs pairs' : list (string * string)) :
  URLSearchParams_toString pairs = URLSearchParams_toString pairs' ->
  pairs = pairs'.
Proof.
  intros H.
  rewrite <- (parse_query_toString pairs), H. apply parse_query_toString.
Qed.

(** [query_string_is_injective] on a pair whose value holds an [&]. *)
Lemma query_string_is_injective_witness :
  [("Genre", "action&Limit=1")] = [("Genre", "action&Limit=1")].
Proof.
  apply (query_string_is_injective
           [("Genre", "action&Limit=1")] [("Genre", "action&Limit=1")] eq_refl).
Defined.

(** X17. A name or value made of letters, digits, [*], [-], [.] and [_]
    alone is written into the query as it is. *)
Theorem urlencode_keeps_plain_text (s : string) :
  all_chars unreserved s = true -> urlencode s = s.
Proof.
  induction s as [| c s IH]; simpl; [reflexivity |].
  intros H. apply andb_true_iff in H as [Hc Hs].
  unfold encode_byte. rewrite Hc, (IH Hs). reflexivity.
Qed.

(** [urlencode_keeps_plain_text] on a field name of the filter schema. *)
Lemma urlencode_keeps_plain_text_witness :
  urlencode "OriginalLanguage" = "OriginalLanguage".
Proof.
  apply (urlencode_keeps_plain_text "OriginalLanguage" eq_refl).
Defined.

(** ** More on splitting *)

(** X18. A string that does not hold the separator is split into itself
    alone, so a cast of one actor is one name; a string that holds it is
    split into two pieces or more. *)
Theorem split_is_single_iff_no_separator (sep s : string) :
  sep <> EmptyString ->
  (occurs sep s = false -> split sep s = [s])
  /\ (occurs sep s = true -> 2 <= length (split sep s)).
Proof.
  intros Hsep. unfold split. split; intros H.
  - now rewrite (split_from_without_separator sep s EmptyString H).
  - now apply split_from_with_separator.
Qed.

(** [split_is_single_iff_no_separator] on a cast of one actor. *)
Lemma split_is_single_iff_no_separator_witness :
  split ", " "Keanu Reeves" = ["Keanu Reeves"].
Proof.
  apply (proj1 (split_is_single_iff_no_separator ", " "Keanu Reeves"
                  ltac:(discriminate)) eq_refl).
Defined.

(** ** The parameter schemas *)

Lemma parse_fields_keys (shape : list Field) (props : list (string * JSValue)) :
  forall bag,
    parse_fields shape props = Some bag ->
    map fst bag = filter (present props) (map field_name shape)
    /\ Forall (fun kv => snd kv = lookup (fst kv) props) bag
    /\ Forall
         (fun kv =>
            exists field,
              In field shape /\ field_name field = fst kv
              /\ has_type (field_type field) (snd kv) = true)
         bag.
Proof.
  induction shape as [| field rest IH]; intros bag H; simpl in H.
  - injection H as <-. repeat split; constructor.
  - assert (Hlater :
              forall bag',
                Forall
                  (fun kv =>
                     exists f,
                       In f rest /\ field_name f = fst kv
                       /\ has_type (field_type f) (snd kv) = true) bag' ->
                Forall
                  (fun kv =>
                     exists f,
                       In f (field :: rest) /\ field_name f = fst kv
                       /\ has_type (field_type f) (snd kv) = true) bag').
    { intros bag' Htypes. eapply Forall_impl; [| exact Htypes].
      intros kv (f & Hin & Hname & Htype). exists f.
      split; [now right | now split]. }
    cbn [map filter].
    destruct (present props (field_name field)) eqn:Hpresent;
      unfold present in Hpresent;
      destruct (lookup (field_name field) props) as [| | b | t | t | l | l]
        eqn:Hlookup;
      try discriminate Hpresent.
    7: { destruct (field_optional field); [| discriminate H].
         destruct (IH bag H) as (Hkeys & Hvalues & Htypes).
         split; [exact Hkeys |]. split; [exact Hvalues | now apply Hlater]. }
    all: destruct (has_type (field_type field) _) eqn:Htype; [| discriminate H].
    all: destruct (parse_fields rest props) as [bag' |] eqn:Hrest;
      [| discriminate H].
    all: injection H as <-.
    all: destruct (IH bag' eq_refl) as (Hkeys & Hvalues & Htypes).
    all: split; [simpl; now rewrite Hkeys |].
    all: split;
      [ constructor; [simpl; now rewrite Hlookup | exact Hvalues] |].
    all: constructor; [| now apply Hlater].
    all: exists field; split; [now left | split; [reflexivity | exact Htype]].
Qed.

(** X19. What a schema lets through: when the parser accepts the arguments,
    they are an object, and the bag it returns holds exactly the fields of
    the shape that the object has, in the order of the shape, each with the
    object's own value, which has the declared type; the properties the shape
    does not name are gone. *)
Theorem parse_keeps_the_declared_fields (shape : list Field) (args : JSValue)
        (bag : list (string * JSValue)) :
  parse shape args = Some bag ->
  exists props,
    args = JObject props
    /\ map fst bag = filter (present props) (map field_name shape)
    /\ Forall (fun kv => snd kv = lookup (fst kv) props) bag
    /\ Forall
         (fun kv =>
            exists field,
              In field shape /\ field_name field = fst kv
              /\ has_type (field_type field) (snd kv) = true)
         bag.
Proof.
  destruct args; simpl; intros H; try discriminate H.
  exists props. split; [reflexivity |]. now apply parse_fields_keys.
Qed.

(** [parse_keeps_the_declared_fields] on filter arguments that carry a
    property the schema does not name. *)
Lemma parse_keeps_the_declared_fields_witness :
  exists props,
    JObject [("Genre", JString "action"); ("page", JNumber "2");
             ("MinYear", JNumber "2010")] = JObject props
    /\ map fst [("MinYear", JNumber "2010"); ("Genre", JString "action")]
       = filter (present props) (map field_name filter_movies_parameters)
    /\ Forall (fun kv => snd kv = lookup (fst kv) props)
         [("MinYear", JNumber "2010"); ("Genre", JString "action")]
    /\ Forall
         (fun kv =>
            exists field,
              In field filter_movies_parameters /\ field_name field = fst kv
              /\ has_type (field_type field) (snd kv) = true)
         [("MinYear", JNumber "2010"); ("Genre", JString "action")].
Proof.
  apply (parse_keeps_the_declared_fields filter_movies_parameters
           (JObject [("Genre", JString "action"); ("page", JNumber "2");
                     ("MinYear", JNumber "2010")])
           [("MinYear", JNumber "2010"); ("Genre", JString "action")] eq_refl).
Defined.

Lemma filter_names_are_plain :
  Forall (fun name => urlencode name = name)
    (map field_name filter_movies_parameters).
Proof. repeat constructor. Qed.

Lemma filter_names_are_distinct :
  NoDup (map field_name filter_movies_parameters).
Proof.
  repeat (constructor; [simpl; intuition discriminate |]). constructor.
Qed.

(** X20. The query of a validated filter call: the names in it are field
    names of the filter schema, written as they are, each at most once; only
    the values are encoded. *)
Theorem validated_filter_query_names (args : JSValue)
        (bag : list (string * JSValue)) :
  parse filter_movies_parameters args = Some bag ->
  URLSearchParams_toString (URLSearchParams bag)
  = join "&"
      (map (fun kv => (fst kv ++ "=" ++ urlencode (ToString (snd kv)))%string) bag)
  /\ Forall (fun kv => In (fst kv) (map field_name filter_movies_parameters)) bag
  /\ NoDup (map fst bag).
Proof.
  destruct args; unfold parse; intros H; try discriminate H.
  destruct (parse_fields_keys _ _ _ H) as (Hkeys & _ & _).
  assert (Hnames : Forall (fun kv => In (fst kv)
                                       (map field_name filter_movies_parameters)) bag).
  { apply Forall_forall. intros kv Hkv.
    assert (Hin : In (fst kv) (map fst bag)) by now apply in_map.
    rewrite Hkeys in Hin. now apply filter_In in Hin as [Hin _]. }
  split; [| split].
  - unfold URLSearchParams_toString, URLSearchParams. rewrite map_map.
    f_equal. apply map_ext_in. intros kv Hkv. unfold pair_text. simpl.
    rewrite Forall_forall in Hnames.
    pose proof filter_names_are_plain as Hplain. rewrite Forall_forall in Hplain.
    now rewrite (Hplain _ (Hnames kv Hkv)).
  - exact Hnames.
  - rewrite Hkeys. apply NoDup_filter. exact filter_names_are_distinct.
Qed.

(** [validated_filter_query_names] on the arguments of an action search. *)
Lemma validated_filter_query_names_witness :
  URLSearchParams_toString
    (URLSearchParams [("MinRating", JNumber "7"); ("MinYear", JNumber "2010");
                      ("Genre", JString "action & adventure")])
  = join "&"
      (map (fun kv => (fst kv ++ "=" ++ urlencode (ToString (snd kv)))%string)
         [("MinRating", JNumber "7"); ("MinYear", JNumber "2010");
          ("Genre", JString "action & adventure")]).
Proof.
  apply (validated_filter_query_names
           (JObject [("Genre", JString "action & adventure");
                     ("MinYear", JNumber "2010"); ("MinRating", JNumber "7")])
           [("MinRating", JNumber "7"); ("MinYear", JNumber "2010");
            ("Genre", JString "action & adventure")] eq_refl).
Defined.

Lemma parse_one_required_string (name : string) (args : JSValue)
      (bag : list (string * JSValue)) :
  parse [{| field_name := name; field_type := TString; field_optional := false |}]
    args = Some bag
  <-> exists props value,
      args = JObject props
      /\ lookup name props = JString value
      /\ bag = [(name, JString value)].
Proof.
  split.
  - destruct args; simpl; intros H; try discriminate H.
    destruct (lookup name props) eqn:Hlookup; try discriminate H.
    injection H as <-. eexists; eexists. repeat split; eassumption.
  - intros (props & value & -> & Hlookup & ->). simpl. now rewrite Hlookup.
Qed.

(** X21. The schemas of the three one-parameter tools accept exactly the
    objects that hold a string under their field ([imdbId] for movie-info and
    movie-cast, [title] for the title search) and pass on that field alone:
    a missing field, a [null] or a number is refused. *)
Theorem one_parameter_schemas_accept_iff (args : JSValue)
        (bag : list (string * JSValue)) :
  (parse get_movie_info_parameters args = Some bag
   <-> exists props imdbId,
       args = JObject props
       /\ lookup "imdbId" props = JString imdbId
       /\ bag = [("imdbId", JString imdbId)])
  /\ (parse get_movie_cast_parameters args = Some bag
      <-> exists props imdbId,
          args = JObject props
          /\ lookup "imdbId" props = JString imdbId
          /\ bag = [("imdbId", JString imdbId)])
  /\ (parse search_movie_title_parameters args = Some bag
      <-> exists props title,
          args = JObject props
          /\ lookup "title" props = JString title
          /\ bag = [("title", JString title)]).
Proof.
  repeat split; apply parse_one_required_string.
Qed.

Lemma lookup_absent (key : string) (props : list (string * JSValue)) :
  ~ In key (map fst props) -> lookup key props = JUndefined.
Proof.
  induction props as [| [k v] rest IH]; simpl; intros H; [reflexivity |].
  destruct (String.eqb_spec k key) as [-> | _].
  - contradict H. now left.
  - apply IH. intros Hin. apply H. now right.
Qed.

Lemma parse_fields_skip (shape : list Field) (key : string) (v : JSValue)
      (props : list (string * JSValue)) :
  ~ In key (map field_name shape) ->
  parse_fields shape ((key, v) :: props) = parse_fields shape props.
Proof.
  induction shape as [| field rest IH]; simpl; intros H; [reflexivity |].
  destruct (String.eqb_spec key (field_name field)) as [-> | _].
  - contradict H. now left.
  - rewrite IH; [reflexivity |]. intros Hin. apply H. now right.
Qed.

Lemma parse_fields_again (shape : list Field) :
  NoDup (map field_name shape) ->
  forall props bag,
    parse_fields shape props = Some bag -> parse_fields shape bag = Some bag.
Proof.
  induction shape as [| field rest IH]; intros Hdistinct props bag H.
  - simpl in H. injection H as <-. reflexivity.
  - simpl in Hdistinct. apply NoDup_cons_iff in Hdistinct as [Hfresh Hdistinct].
    simpl in H.
    destruct (lookup (field_name field) props) as [| | b | t | t | l | l]
      eqn:Hlookup.
    1: { destruct (field_optional field) eqn:Hoptional; [| discriminate H].
         destruct (parse_fields_keys _ _ _ H) as (Hkeys & _ & _).
         simpl. rewrite lookup_absent, Hoptional; [now apply (IH Hdistinct props) |].
         rewrite Hkeys. intros Hin. apply filter_In in Hin as [Hin _].
         now apply Hfresh. }
    all: destruct (has_type (field_type field) _) eqn:Htype; [| discriminate H].
    all: destruct (parse_fields rest props) as [bag' |] eqn:Hrest;
      [| discriminate H].
    all: injection H as <-.
    all: simpl; rewrite String.eqb_refl, Htype.
    all: rewrite (parse_fields_skip rest _ _ _ Hfresh).
    all: now rewrite (IH Hdistinct props bag' Hrest).
Qed.

(** X22. Validating twice changes nothing: the bag a schema with distinct
    field names returns is accepted by the same schema as it is. The four
    schemas of the tools have distinct field names. *)
Theorem parse_is_idempotent (shape : list Field) (args : JSValue)
        (bag : list (string * JSValue)) :
  NoDup (map field_name shape) ->
  parse shape args = Some bag ->
  parse shape (JObject bag) = Some bag.
Proof.
  intros Hdistinct. destruct args; simpl; intros H; try discriminate H.
  now apply (parse_fields_again shape Hdistinct props).
Qed.

(** [parse_is_idempotent] on filter arguments with a property to drop. *)
Lemma parse_is_idempotent_witness :
  parse filter_movies_parameters
    (JObject [("MinYear", JNumber "2010"); ("Genre", JString "action")])
  = Some [("MinYear", JNumber "2010"); ("Genre", JString "action")].
Proof.
  apply (parse_is_idempotent filter_movies_parameters
           (JObject [("Genre", JString "action"); ("page", JNumber "2");
                     ("MinYear", JNumber "2010")])
           [("MinYear", JNumber "2010"); ("Genre", JString "action")]
           filter_names_are_distinct eq_refl).
Defined.

(** ** The success paths of the other tools *)

(** X23. A title search answered with an array whose elements are not
    [null] and whose [id]s convert to a string: the generator waits a second,
    commits the summary that quotes the title asked for, and returns a
    fragment headed by the same quoted title over the list of the array's
    items. The summary does not depend on what was found. *)
Theorem search_shows_the_array_under_the_title (env : Env) (title : string)
        (w : World) (response : Response) (items : list JSValue) :
  fetch_answer env (provider_request env (Call_search_movie_title title))
  = Responded response ->
  ok response = true ->
  body response = Some (JArray items) ->
  forallb (listable "id") items = true ->
  fst (search_movie_title_generate env title w)
  = Returned
      (div [h2 [RText ("Movies matching " ++ dquote);
                RValue (JString title); RText dquote];
            ul [RArray (map search_item items)]])
  /\ history (snd (search_movie_title_generate env title w))
     = history w
         ++ [tool_entry search_movie_title
               ("[Movies matching " ++ dquote ++ title ++ dquote ++ "]")]
  /\ slept (snd (search_movie_title_generate env title w)) = (slept w + 1000)%Z.
Proof.
  intros Hfetch Hok Hbody Hitems.
  unfold provider_request, provider_url in Hfetch.
  autounfold with action; simpl in *.
  rewrite Hfetch; simpl. rewrite Hok; simpl. rewrite Hbody; simpl.
  pose proof (search_items_on_values items Hitems) as Hlist.
  unfold search_items in Hlist. rewrite Hlist. simpl.
  repeat split; reflexivity.
Qed.

(** [search_shows_the_array_under_the_title] on an answer of one record. *)
Lemma search_shows_the_array_under_the_title_witness :
  fst (search_movie_title_generate
         (scripted StreamError
            (success (JArray [JObject [("id", JNumber "27205");
                                       ("title", JString "Inception")]])))
         "Inception" (start initialAIState))
  = Returned
      (div [h2 [RText ("Movies matching " ++ dquote);
                RValue (JString "Inception"); RText dquote];
            ul [RArray [RElement "li" [] (Some "27205")
                          [RValue (JString "Inception")]]]]).
Proof.
  apply (search_shows_the_array_under_the_title
           (scripted StreamError
              (success (JArray [JObject [("id", JNumber "27205");
                                         ("title", JString "Inception")]])))
           "Inception" (start initialAIState)
           {| ok := true;
              body := Some (JArray [JObject [("id", JNumber "27205");
                                             ("title", JString "Inception")]]) |}
           [JObject [("id", JNumber "27205"); ("title", JString "Inception")]]
           eq_refl eq_refl eq_refl eq_refl).
Defined.

(** X24. A filter request answered with an array whose elements are not
    [null] and whose [imdbID]s convert to a string: the fragment is the
    constant heading over the list of the array's items, so neither the
    fragment's heading nor the summary shows the criteria: two filter calls
    with different criteria and the same answer return the same fragment. *)
Theorem filter_shows_the_array_without_criteria (env1 env2 : Env)
        (params1 params2 : list (string * JSValue)) (w1 w2 : World)
        (response : Response) (items : list JSValue) :
  fetch_answer env1 (provider_request env1 (Call_filter_movies params1))
  = Responded response ->
  fetch_answer env2 (provider_request env2 (Call_filter_movies params2))
  = Responded response ->
  ok response = true ->
  body response = Some (JArray items) ->
  forallb (listable "imdbID") items = true ->
  fst (filter_movies_generate env1 params1 w1)
  = Returned
      (div [h2 [RText "Movies matching criteria"];
            ul [RArray (map filter_item items)]])
  /\ fst (filter_movies_generate env2 params2 w2)
     = fst (filter_movies_generate env1 params1 w1).
Proof.
  intros Hfetch1 Hfetch2 Hok Hbody Hitems.
  unfold provider_request, provider_url in Hfetch1, Hfetch2.
  pose proof (filter_items_on_values items Hitems) as Hlist.
  unfold filter_items in Hlist.
  autounfold with action; simpl in *.
  rewrite Hfetch1, Hfetch2; simpl. rewrite Hok; simpl. rewrite Hbody; simpl.
  rewrite Hlist. simpl. split; reflexivity.
Qed.

(** [filter_shows_the_array_without_criteria] on two different bags. *)
Lemma filter_shows_the_array_without_criteria_witness :
  fst (filter_movies_generate
         (scripted StreamError (success (JArray [inception_credits])))
         [("Genre", JString "comedy")] (start initialAIState))
  = fst (filter_movies_generate
           (scripted StreamError (success (JArray [inception_credits])))
           action_since_2010 (start initialAIState)).
Proof.
  apply (filter_shows_the_array_without_criteria
           (scripted StreamError (success (JArray [inception_credits])))
           (scripted StreamError (success (JArray [inception_credits])))
           action_since_2010 [("Genre", JString "comedy")]
           (start initialAIState) (start initialAIState)
           {| ok := true; body := Some (JArray [inception_credits]) |}
           [inception_credits] eq_refl eq_refl eq_refl eq_refl eq_refl).
Defined.

(** X25. In the cast fragment the history and the display agree: on a success
    whose first record holds a string under [Actors] and a [Title] that
    converts to a string, the summary committed is "[Cast of T]" and the
    heading shows "Cast of " followed by the same value T, the record's
    [Title]; the generator has waited a second and closed the history. *)
Theorem cast_summary_names_what_is_shown (env : Env) (imdbId : string)
        (w : World) (response : Response) (props : list (string * JSValue))
        (others : list JSValue) (actors : string) :
  fetch_answer env (provider_request env (Call_get_movie_cast imdbId))
  = Responded response ->
  ok response = true ->
  body response = Some (JArray (JObject props :: others)) ->
  lookup "Actors" props = JString actors ->
  coercible (lookup "Title" props) = true ->
  (exists paragraph,
      fst (get_movie_cast_generate env imdbId w)
      = Returned
          (div [h2 [RText "Cast of "; RValue (lookup "Title" props)]; paragraph]))
  /\ history (snd (get_movie_cast_generate env imdbId w))
     = history w
         ++ [tool_entry get_movie_cast
               ("[Cast of " ++ ToString (lookup "Title" props) ++ "]")]
  /\ closed (snd (get_movie_cast_generate env imdbId w)) = true
  /\ slept (snd (get_movie_cast_generate env imdbId w)) = (slept w + 1000)%Z.
Proof.
  intros Hfetch Hok Hbody Hactors Htitle.
  unfold provider_request, provider_url in Hfetch.
  autounfold with action; simpl in *.
  rewrite Hfetch; simpl. rewrite Hok; simpl. rewrite Hbody; simpl.
  rewrite Hactors; simpl. unfold coerce. rewrite Htitle; simpl.
  split; [eexists; reflexivity |]. repeat split; reflexivity.
Qed.

(** [cast_summary_names_what_is_shown] on the cast of Inception. *)
Lemma cast_summary_names_what_is_shown_witness :
  history
    (snd (get_movie_cast_generate
            (scripted StreamError (success (JArray [inception_credits])))
            "tt1375666" (start [user_entry "who is in tt1375666"])))
  = [user_entry "who is in tt1375666";
     tool_entry get_movie_cast "[Cast of Inception]"].
Proof.
  apply (cast_summary_names_what_is_shown
           (scripted StreamError (success (JArray [inception_credits])))
           "tt1375666" (start [user_entry "who is in tt1375666"])
           {| ok := true; body := Some (JArray [inception_credits]) |}
           [("Title", JString "Inception"); ("Year", JString "2010");
            ("imdbID", JString "tt1375666");
            ("Actors", JString "Leonardo DiCaprio, Joseph Gordon-Levitt")]
           [] "Leonardo DiCaprio, Joseph Gordon-Levitt"
           eq_refl eq_refl eq_refl eq_refl eq_refl).
Defined.
